(** * ai_translator.py: the OpenAI-compatible translation adapter

    A shallow embedding of [src/ai_translator.py] and the properties of
    its URL normalisation, request construction, response handling and
    module-level singleton.

    Python values are modelled as follows.
    - [str] is a list of Unicode code points ([N]); literals of the source
      are written [lit "..."].
    - Exceptions are values of [exn]; a computation that may raise returns
      a [result]; a computation that also prints or talks to the network
      returns an [Eff], the list of its effects in program order together
      with its [result].
    - JSON documents (the request body and what [response.json()] yields)
      are values of [json], with Python's behaviour of [.get], [[0]],
      truthiness and [.strip()] on each kind of value.
    - [urllib.parse] and the HTTP transport are interfaces ([Urllib],
      [Transport]); the adapter is defined over any implementation of
      them.  [CPython] is a model of the parser of CPython 3.11. *)

From Stdlib Require Import String Ascii DecimalString.
From Stdlib Require Import List NArith ZArith QArith Bool Lia.
Import ListNotations.

Set Implicit Arguments.
#[local] Set Warnings "-register-all".

(** ** Python strings *)

Definition str : Type := list N.

(** An ASCII literal of the source as a [str]. *)
Definition lit (s : string) : str := map N_of_ascii (list_ascii_of_string s).

(** The quotation mark, code point 34. *)
Definition dquote : str := [34%N].

(** A line feed, code point 10. *)
Definition LF : str := [10%N].

Fixpoint str_eqb (a b : str) : bool :=
  match a, b with
  | [], [] => true
  | x :: a', y :: b' => N.eqb x y && str_eqb a' b'
  | _, _ => false
  end.

(** [bool(s)] for a string: true iff [s] is not empty. *)
Definition str_truthy (s : str) : bool :=
  match s with [] => false | _ :: _ => true end.

(** [s.endswith(suffix)] *)
Definition endswith (s suffix : str) : bool :=
  (length suffix <=? length s)%nat
  && str_eqb (skipn (length s - length suffix) s) suffix.

(** [c in chars] for a single character [c]. *)
Definition char_in (c : N) (chars : str) : bool := existsb (N.eqb c) chars.

(** [str.isspace()] of one code point (CPython's [_PyUnicode_IsWhitespace]). *)
Definition isspace (c : N) : bool :=
  ((9 <=? c) && (c <=? 13) || (28 <=? c) && (c <=? 32)
   || (c =? 133) || (c =? 160) || (c =? 5760)
   || (8192 <=? c) && (c <=? 8202)
   || (c =? 8232) || (c =? 8233) || (c =? 8239) || (c =? 8287)
   || (c =? 12288))%N.

Fixpoint dropwhile (p : N -> bool) (s : str) : str :=
  match s with
  | [] => []
  | c :: s' => if p c then dropwhile p s' else s
  end.

Fixpoint takewhile (p : N -> bool) (s : str) : str :=
  match s with
  | [] => []
  | c :: s' => if p c then c :: takewhile p s' else []
  end.

(** [s.lstrip()], [s.rstrip()] and [s.strip()] without argument. *)
Definition lstrip (s : str) : str := dropwhile isspace s.
Definition rstrip (s : str) : str := rev (dropwhile isspace (rev s)).
Definition strip (s : str) : str := rstrip (lstrip s).

(** [str(n)] for an [int]. *)
Definition str_of_int (n : Z) : str := lit (NilZero.string_of_int (Z.to_int n)).

(** [sub] occurs in [s] as a contiguous substring. *)
Definition substring (sub s : str) : Prop :=
  exists pre post, s = pre ++ sub ++ post.

(** Number of positions of [s] at which two consecutive slashes start. *)
Fixpoint count_double_slash (s : str) : nat :=
  match s with
  | a :: ((b :: _) as s') =>
      (if (N.eqb a 47 && N.eqb b 47) then 1 else 0) + count_double_slash s'
  | _ => 0
  end.

(** [r] is [s] without its leading and trailing whitespace. *)
Definition trimmed (s r : str) : Prop :=
  (exists lead trail,
      s = lead ++ r ++ trail
      /\ forallb isspace lead = true /\ forallb isspace trail = true)
  /\ (match r with [] => True | c :: _ => isspace c = false end)
  /\ (match rev r with [] => True | c :: _ => isspace c = false end).

(** ** Exceptions *)

(** The classes of exception the adapter distinguishes or raises itself.
    Every value is an instance of [Exception], the class the last
    [except] clause names; [ServerTimeoutError] is aiohttp's class deriving
    from both [ClientError] and [asyncio.TimeoutError].  What is raised
    without being an [Exception] (the cancellation of the awaiting task,
    an interrupt) is a signal to the caller and is not modelled. *)
Inductive exn_class : Type :=
| TimeoutError
| ClientError
| ServerTimeoutError
| ValueError
| TypeError
| AttributeError
| IndexError
| KeyError
| OtherException.

(** An exception: its class and [str(e)]. *)
Record exn : Type := mk_exn { exn_cls : exn_class; exn_str : str }.

(** [isinstance(e, asyncio.TimeoutError)] *)
Definition is_TimeoutError (e : exn) : bool :=
  match exn_cls e with TimeoutError | ServerTimeoutError => true | _ => false end.

(** [isinstance(e, aiohttp.ClientError)] *)
Definition is_ClientError (e : exn) : bool :=
  match exn_cls e with ClientError | ServerTimeoutError => true | _ => false end.

Inductive result (A : Type) : Type :=
| Ok (a : A)
| Raise (e : exn).
Arguments Raise {A} e.

(** Sequencing of computations that may raise. *)
Definition and_then {A B} (r : result A) (k : A -> result B) : result B :=
  match r with
  | Ok a => k a
  | Raise e => Raise e
  end.

(** ** JSON values, as [json.loads] represents them *)

Inductive pyfloat : Type :=
| Finite (q : Q)
| Infinity (negative : bool)
| NaN.

Inductive json : Type :=
| JNull
| JBool (b : bool)
| JInt (n : Z)
| JFloat (x : pyfloat)
| JStr (s : str)
| JArr (items : list json)
| JObj (fields : list (str * json)).

(** [type(v).__name__] *)
Definition type_name (v : json) : str :=
  match v with
  | JNull => lit "NoneType"
  | JBool _ => lit "bool"
  | JInt _ => lit "int"
  | JFloat _ => lit "float"
  | JStr _ => lit "str"
  | JArr _ => lit "list"
  | JObj _ => lit "dict"
  end.

(** [bool(v)] *)
Definition truthy (v : json) : bool :=
  match v with
  | JNull => false
  | JBool b => b
  | JInt n => negb (Z.eqb n 0)
  | JFloat (Finite q) => negb (Z.eqb (Qnum q) 0)
  | JFloat _ => true
  | JStr s => str_truthy s
  | JArr items => match items with [] => false | _ => true end
  | JObj fields => match fields with [] => false | _ => true end
  end.

(** Lookup of a key in a dict, represented by the list of its items; of
    two items with one key the first is the item of the dict. *)
Fixpoint dict_lookup (fields : list (str * json)) (key : str) : option json :=
  match fields with
  | [] => None
  | (k, v) :: rest => if str_eqb k key then Some v else dict_lookup rest key
  end.

Definition no_attribute (v : json) (attr : string) : exn :=
  mk_exn AttributeError
    (lit "'" ++ type_name v ++ lit "' object has no attribute '" ++ lit attr ++ lit "'").

(** [v.get(key, default)] *)
Definition py_get (v : json) (key : str) (default : json) : result json :=
  match v with
  | JObj fields =>
      match dict_lookup fields key with
      | Some x => Ok x
      | None => Ok default
      end
  | _ => Raise (no_attribute v "get")
  end.

(** [v[0]] *)
Definition py_item0 (v : json) : result json :=
  match v with
  | JArr (x :: _) => Ok x
  | JArr [] => Raise (mk_exn IndexError (lit "list index out of range"))
  | JStr (c :: _) => Ok (JStr [c])
  | JStr [] => Raise (mk_exn IndexError (lit "string index out of range"))
  | JObj _ => Raise (mk_exn KeyError (lit "0"))
  | _ => Raise (mk_exn TypeError
                  (lit "'" ++ type_name v ++ lit "' object is not subscriptable"))
  end.

(** [v.strip()] *)
Definition py_strip (v : json) : result str :=
  match v with
  | JStr s => Ok (strip s)
  | _ => Raise (no_attribute v "strip")
  end.

(** ** Effects: printing and the network *)

(** What [session.post] is called with. *)
Record http_request : Type := mk_request {
  req_url : str;
  req_json : json;
  req_headers : list (str * str);
  req_timeout_total : Z
}.

(** An [aiohttp.ClientResponse]: its status and what awaiting [text()] and
    [json()] yields. *)
Record response : Type := mk_response {
  status : Z;
  response_text : result str;
  response_json : result json
}.

(** [response.ok].  aiohttp defines the property as [400 > self.status]
    and documents it as true if the status is less than 400, not as a
    check for a status from 200 to 299. *)
Definition ok (r : response) : bool := (status r <? 400)%Z.

(** What entering [ClientSession().post(...)] does: a response arrives, or
    an exception is raised (a timeout, a connection error, ...). *)
Inductive post_outcome : Type :=
| Responds (r : response)
| Fails (e : exn).

(** The HTTP transport the adapter runs against. *)
Class Transport : Type := { session_post : http_request -> post_outcome }.

Inductive event : Type :=
| EvPost (req : http_request)
| EvReadText
| EvReadJson
| EvPrint (line : str).

(** An effectful computation: its effects in order, and how it ends. *)
Definition Eff (A : Type) : Type := (list event * result A)%type.

Definition ret {A} (a : A) : Eff A := ([], Ok a).

Definition bind {A B} (c : Eff A) (k : A -> Eff B) : Eff B :=
  match c with
  | (t, Ok a) => let (t', r) := k a in (t ++ t', r)
  | (t, Raise e) => (t, Raise e)
  end.

Definition lift {A} (r : result A) : Eff A := ([], r).

Definition emit (ev : event) : Eff unit := ([ev], Ok tt).

(** [try: c  except Exception as e: h e] *)
Definition try_except {A} (c : Eff A) (h : exn -> Eff A) : Eff A :=
  match c with
  | (t, Ok a) => (t, Ok a)
  | (t, Raise e) => let (t', r) := h e in (t ++ t', r)
  end.

Declare Scope eff_scope.
Delimit Scope eff_scope with eff.
Notation "x <- c ;; k" := (bind c (fun x => k))
  (at level 61, c at next level, right associativity) : eff_scope.
Notation "c ;; k" := (bind c (fun _ => k))
  (at level 61, right associativity) : eff_scope.

(** [print(line)] *)
Definition print (line : str) : Eff unit := emit (EvPrint line).

(** [if flag: print(line)] *)
Definition print_if (flag : bool) (line : str) : Eff unit :=
  if flag then print line else ret tt.

(** [async with session.post(...) as response] *)
Definition await_post {net : Transport} (req : http_request) : Eff response :=
  match session_post req with
  | Responds r => ([EvPost req], Ok r)
  | Fails e => ([EvPost req], Raise e)
  end.

(** [await response.text()] and [await response.json()] *)
Definition await_text (r : response) : Eff str := ([EvReadText], response_text r).
Definition await_json (r : response) : Eff json := ([EvReadJson], response_json r).

Definition trace {A} (c : Eff A) : list event := fst c.
Definition outcome {A} (c : Eff A) : result A := snd c.

Definition is_post (ev : event) : bool :=
  match ev with EvPost _ => true | _ => false end.

(** The lines printed, in order. *)
Fixpoint printed (t : list event) : list str :=
  match t with
  | [] => []
  | EvPrint line :: t' => line :: printed t'
  | _ :: t' => printed t'
  end.

(** ** urllib.parse *)

Record ParseResult : Type := mk_ParseResult {
  scheme : str;
  netloc : str;
  path : str;
  params : str;
  query : str;
  fragment : str
}.

(** The two functions imported at line 16.  [urlparse] may raise;
    [urlunparse] takes the 6-tuple of components. *)
Class Urllib : Type := {
  urlparse : str -> result ParseResult;
  urlunparse : str * str * str * str * str * str -> str
}.

(** ** A model of CPython 3.11's [urllib.parse]

    [urlsplit], [urlparse], [urlunsplit] and [urlunparse] for [str]
    arguments, with the default [scheme=''] and [allow_fragments=True].
    Two validations of the network location run code of other modules
    ([ipaddress], [re], [unicodedata]); they are taken as arguments and
    only decide whether [ValueError] is raised. *)
Module CPython.

Record validators : Type := {
  (** [_check_bracketed_netloc(netloc)], called when [netloc] holds both
      brackets *)
  check_bracketed_netloc : str -> result unit;
  (** the NFKC test of [_checknetloc(netloc)], made when [netloc] is not
      ASCII *)
  check_nfkc : str -> result unit
}.

Definition uses_netloc : list str :=
  map lit [EmptyString; "ftp"; "http"; "gopher"; "nntp"; "telnet";
           "imap"; "wais"; "file"; "mms"; "https"; "shttp";
           "snews"; "prospero"; "rtsp"; "rtspu"; "rsync";
           "svn"; "svn+ssh"; "sftp"; "nfs"; "git"; "git+ssh";
           "ws"; "wss"]%string.

Definition uses_params : list str :=
  map lit [EmptyString; "ftp"; "hdl"; "prospero"; "http"; "imap";
           "https"; "shttp"; "rtsp"; "rtspu"; "sip"; "sips";
           "mms"; "sftp"; "tel"]%string.

Definition scheme_chars : str :=
  lit "abcdefghijklmnopqrstuvwxyzABCDEFGHIJKLMNOPQRSTUVWXYZ0123456789+-.".

(** [c in _WHATWG_C0_CONTROL_OR_SPACE] *)
Definition c0_control_or_space (c : N) : bool := (c <=? 32)%N.

(** [c in _UNSAFE_URL_BYTES_TO_REMOVE] *)
Definition unsafe_url_byte (c : N) : bool :=
  (N.eqb c 9 || N.eqb c 13 || N.eqb c 10)%N.

Definition str_in_list (s : str) (l : list str) : bool := existsb (str_eqb s) l.

(** [c.isascii() and c.isalpha()] *)
Definition ascii_alpha (c : N) : bool :=
  ((65 <=? c) && (c <=? 90) || (97 <=? c) && (c <=? 122))%N.

(** [s.lower()] on the characters a scheme may hold. *)
Definition lower_char (c : N) : N :=
  if ((65 <=? c) && (c <=? 90))%N then (c + 32)%N else c.
Definition lower (s : str) : str := map lower_char s.

(** [s.isascii()] *)
Definition isascii (s : str) : bool := forallb (fun c => (c <? 128)%N) s.

(** [s.find(c, start)]: the first index at or after [start] holding [c]. *)
Fixpoint find_from (c : N) (s : str) (start : nat) : option nat :=
  match s with
  | [] => None
  | x :: s' =>
      match start with
      | O => if N.eqb x c then Some O else option_map S (find_from c s' O)
      | S start' => option_map S (find_from c s' start')
      end
  end.

(** [s.rfind(c)] *)
Fixpoint rfind (c : N) (s : str) : option nat :=
  match s with
  | [] => None
  | x :: s' =>
      match rfind c s' with
      | Some i => Some (S i)
      | None => if N.eqb x c then Some O else None
      end
  end.

(** [s.split(c, 1)] when [c in s]: the text before and after the first [c]. *)
Definition split_first (c : N) (s : str) : option (str * str) :=
  match find_from c s 0 with
  | Some i => Some (firstn i s, skipn (S i) s)
  | None => None
  end.

(** [_splitnetloc(url, 2)]: the text after [//] up to the first of [/?#],
    and the rest. *)
Definition _splitnetloc (url : str) : str * str :=
  let in_domain := fun c => negb (char_in c (lit "/?#")) in
  (takewhile in_domain (skipn 2 url), dropwhile in_domain (skipn 2 url)).

Definition invalid_ipv6 : exn := mk_exn ValueError (lit "Invalid IPv6 URL").

(** Lines 494-499: leading C0 controls and spaces are stripped, then tabs
    and line ends are removed. *)
Definition sanitize (url : str) : str :=
  filter (fun c => negb (unsafe_url_byte c)) (dropwhile c0_control_or_space url).

(** Lines 503-509: the scheme, lowered, and the text after its colon; the
    empty scheme and the whole text when no scheme leads the URL. *)
Definition split_scheme (url : str) : str * str :=
  match split_first 58 url with
  | Some (c :: pre, rest) =>
      if ascii_alpha c && forallb (fun x => char_in x scheme_chars) (c :: pre)
      then (lower (c :: pre), rest)
      else ([], url)
  | _ => ([], url)
  end.

(** Lines 512-516: the checks of the brackets of a network location. *)
Definition check_brackets (v : validators) (netloc : str) : result unit :=
  let has_open := char_in 91 netloc in
  let has_close := char_in 93 netloc in
  if (has_open && negb has_close) || (has_close && negb has_open)
  then Raise invalid_ipv6
  else if has_open && has_close then check_bracketed_netloc v netloc
  else Ok tt.

(** Lines 510-516: the network location and the text after it. *)
Definition split_netloc (v : validators) (url : str) : result (str * str) :=
  if str_eqb (firstn 2 url) (lit "//") then
    let '(netloc, rest) := _splitnetloc url in
    and_then (check_brackets v netloc) (fun _ => Ok (netloc, rest))
  else Ok ([], url).

(** Lines 517-520: [url.split(c, 1)] when [c in url], and [(url, '')]
    otherwise. *)
Definition split_off (c : N) (url : str) : str * str :=
  match split_first c url with
  | Some (before, after) => (before, after)
  | None => (url, [])
  end.

(** [_checknetloc(netloc)], lines 421-437. *)
Definition _checknetloc (v : validators) (netloc : str) : result unit :=
  if negb (str_truthy netloc) || isascii netloc then Ok tt
  else check_nfkc v netloc.

(** [urlsplit(url)]: (scheme, netloc, path, query, fragment). *)
Definition urlsplit (v : validators) (url : str)
  : result (str * str * str * str * str) :=
  let '(scheme, url) := split_scheme (sanitize url) in
  and_then (split_netloc v url) (fun '(netloc, url) =>
  let '(url, fragment) := split_off 35 url in
  let '(url, query) := split_off 63 url in
  and_then (_checknetloc v netloc) (fun _ =>
  Ok (scheme, netloc, url, query, fragment))).

(** [_splitparams(url)].  It is called when [';' in url]; without a [;]
    and without a [/], [find] gives [-1] and the slices are [url[:-1]] and
    [url[0:]]. *)
Definition _splitparams (url : str) : str * str :=
  let cut (i : nat) := (firstn i url, skipn (S i) url) in
  match rfind 47 url with
  | Some slash =>
      match find_from 59 url slash with
      | Some i => cut i
      | None => (url, [])
      end
  | None =>
      match find_from 59 url 0 with
      | Some i => cut i
      | None => (removelast url, url)
      end
  end.

Definition urlparse (v : validators) (url : str) : result ParseResult :=
  match urlsplit v url with
  | Raise e => Raise e
  | Ok (scheme, netloc, url, query, fragment) =>
      let '(url, params) :=
        if str_in_list scheme uses_params && char_in 59 url
        then _splitparams url
        else (url, []) in
      Ok (mk_ParseResult scheme netloc url params query fragment)
  end.

(** [urlunsplit((scheme, netloc, url, query, fragment))] *)
Definition urlunsplit (components : str * str * str * str * str) : str :=
  let '(scheme, netloc, url, query, fragment) := components in
  let url :=
    if str_truthy netloc
       || (str_truthy scheme && str_in_list scheme uses_netloc
           && negb (str_eqb (firstn 2 url) (lit "//")))
    then
      let url :=
        if str_truthy url && negb (str_eqb (firstn 1 url) (lit "/"))
        then lit "/" ++ url else url in
      lit "//" ++ netloc ++ url
    else url in
  let url := if str_truthy scheme then scheme ++ lit ":" ++ url else url in
  let url := if str_truthy query then url ++ lit "?" ++ query else url in
  let url := if str_truthy fragment then url ++ lit "#" ++ fragment else url in
  url.

(** [urlunparse((scheme, netloc, url, params, query, fragment))] *)
Definition urlunparse (components : str * str * str * str * str * str) : str :=
  let '(scheme, netloc, url, params, query, fragment) := components in
  let url := if str_truthy params then url ++ lit ";" ++ params else url in
  urlunsplit (scheme, netloc, url, query, fragment).

(** The validators that accept every network location. *)
Definition accept_all : validators :=
  {| check_bracketed_netloc := fun _ => Ok tt; check_nfkc := fun _ => Ok tt |}.

Definition urllib (v : validators) : Urllib :=
  Build_Urllib (urlparse v) urlunparse.

End CPython.

(** ** The adapter *)

Definition join_lines (lines : list str) : str :=
  match lines with
  | [] => []
  | l :: rest => l ++ flat_map (fun x => LF ++ x) rest
  end.

(** Lines 19-25. *)
Definition DEFAULT_SYSTEM_PROMPT : str :=
  join_lines
    [ lit "You are a translator for Twitch chat messages.";
      lit "Your task is to translate the given text accurately and naturally.";
      lit "Rules:";
      lit "1. Output ONLY the translated text, nothing else.";
      lit "2. Do not add explanations, quotes, or prefixes.";
      lit "3. Keep the tone casual and natural, as it's chat messages.";
      lit "4. Preserve emotes, usernames, and special formatting." ].

(** The default values of the keyword arguments of [__init__] and
    [init_translator]: [system_prompt=None], [temperature=0.3],
    [debug=False]. *)
Definition default_system_prompt : option str := None.
Definition default_temperature : pyfloat := Finite (3 # 10).
Definition default_debug : bool := false.

(** Three quotation marks. *)
Definition triple_quote : str := dquote ++ dquote ++ dquote.

Module AITranslator.

Record t : Type := mk {
  api_url : str;
  api_key : str;
  model : str;
  system_prompt : str;
  temperature : pyfloat;
  debug : bool
}.

(** Lines 31-49.  [system_prompt] is [None] or a string. *)
Definition __init__ (api_url api_key model : str) (system_prompt : option str)
    (temperature : pyfloat) (debug : bool) : t :=
  {| api_url := api_url;
     api_key := api_key;
     model := model;
     system_prompt :=
       match system_prompt with
       | Some s => if str_truthy s then s else DEFAULT_SYSTEM_PROMPT
       | None => DEFAULT_SYSTEM_PROMPT
       end;
     temperature := temperature;
     debug := debug |}.

Section Methods.
Context {lib : Urllib} {net : Transport}.

(** Lines 52-84.  The body of the [try] yields the new [target_url];
    [except Exception: pass] leaves it as it was. *)
Definition _get_api_url (self : t) : result str :=
  let target_url := api_url self in
  match urlparse (api_url self) with
  | Ok parsed =>
      let path := path parsed in
      if negb (endswith path (lit "/chat/completions")) then
        let path :=
          if endswith path (lit "/")
          then path ++ lit "chat/completions"
          else path ++ lit "/chat/completions" in
        Ok (urlunparse (scheme parsed, netloc parsed, path,
                        params parsed, query parsed, fragment parsed))
      else Ok target_url
  | Raise _ => Ok target_url
  end.

(** Lines 99-105. *)
Definition user_message (text source_lang target_lang : str) : str :=
  lit "Source Language: " ++ source_lang ++ LF
  ++ lit "Target Language: " ++ target_lang ++ LF
  ++ lit "Text to translate:" ++ LF
  ++ triple_quote ++ LF
  ++ text ++ LF
  ++ triple_quote ++ LF
  ++ lit "Translation:".

(** Lines 87-114. *)
Definition _build_request_body (self : t) (text source_lang target_lang : str)
  : json :=
  JObj [ (lit "model", JStr (model self));
         (lit "messages",
          JArr [ JObj [ (lit "role", JStr (lit "system"));
                        (lit "content", JStr (system_prompt self)) ];
                 JObj [ (lit "role", JStr (lit "user"));
                        (lit "content",
                         JStr (user_message text source_lang target_lang)) ] ]);
         (lit "temperature", JFloat (temperature self)) ].

(** Lines 135-138. *)
Definition request_headers (self : t) : list (str * str) :=
  [ (lit "Content-Type", lit "application/json");
    (lit "Authorization", lit "Bearer " ++ api_key self) ].

(** Line 170:
    [data.get('choices', [{}])[0].get('message', {}).get('content', '')] *)
Definition extract_content (data : json) : result json :=
  and_then (py_get data (lit "choices") (JArr [JObj []])) (fun choices =>
  and_then (py_item0 choices) (fun first =>
  and_then (py_get first (lit "message") (JObj [])) (fun message =>
  py_get message (lit "content") (JStr [])))).

Local Open Scope eff_scope.

(** Lines 148-177: the body of [async with session.post(...) as response]. *)
Definition handle_response (self : t) (response : response) : Eff str :=
  if (status response =? 401)%Z then
    print_if (debug self) (lit "[AI Translator] Invalid API Key") ;;
    ret []
  else if (status response =? 429)%Z then
    print_if (debug self) (lit "[AI Translator] Rate limit exceeded") ;;
    ret []
  else if (status response >=? 500)%Z then
    print_if (debug self)
      (lit "[AI Translator] API server error: " ++ str_of_int (status response)) ;;
    ret []
  else if negb (ok response) then
    error_text <- await_text response ;;
    print_if (debug self)
      (lit "[AI Translator] API error: " ++ str_of_int (status response)
       ++ lit " - " ++ error_text) ;;
    ret []
  else
    data <- await_json response ;;
    translated_text <- lift (extract_content data) ;;
    if negb (truthy translated_text) then
      print_if (debug self) (lit "[AI Translator] Empty response from API") ;;
      ret []
    else
      lift (py_strip translated_text).

(** Lines 179-192: the three [except] clauses, tried in order. *)
Definition handle_exception (self : t) (e : exn) : Eff str :=
  if is_TimeoutError e then
    print_if (debug self) (lit "[AI Translator] API request timeout") ;;
    ret []
  else if is_ClientError e then
    print_if (debug self) (lit "[AI Translator] Network error: " ++ exn_str e) ;;
    ret []
  else
    print_if (debug self) (lit "[AI Translator] Unexpected error: " ++ exn_str e) ;;
    ret [].

(** Lines 117-192. *)
Definition translate (self : t) (text source_lang target_lang : str) : Eff str :=
  if negb (str_truthy text) then ret []
  else
    api_url <- lift (_get_api_url self) ;;
    let request_body := _build_request_body self text source_lang target_lang in
    let headers := request_headers self in
    try_except
      (response <- await_post (mk_request api_url request_body headers 30) ;;
       handle_response self response)
      (handle_exception self).

End Methods.
End AITranslator.

(** ** The module-level singleton *)

(** The module's global variable, line 197. *)
Record module_state : Type := { _translator : option AITranslator.t }.

(** The state of the module when it has been imported and
    [init_translator] has not been called. *)
Definition module_loaded : module_state := {| _translator := None |}.

(** Lines 200-214. *)
Definition init_translator (api_url api_key model : str)
    (system_prompt : option str) (temperature : pyfloat) (debug : bool)
    (globals : module_state) : module_state :=
  {| _translator :=
       Some (AITranslator.__init__ api_url api_key model system_prompt
               temperature debug) |}.

(** Lines 217-233. *)
Definition translate {lib : Urllib} {net : Transport} (globals : module_state)
    (text source_lang target_lang : str) : Eff str :=
  match _translator globals with
  | None =>
      bind (print (lit "[AI Translator] Translator not initialized. Call init_translator() first."))
           (fun _ => ret [])
  | Some translator =>
      AITranslator.translate translator text source_lang target_lang
  end.

(** ** What the specification calls the content of a response body *)

(** [choices[0].message.content] of a JSON document, when every step of
    that path exists: the document and the two inner values are objects
    holding the key, and [choices] is a non-empty array. *)
Definition response_content (data : json) : option json :=
  match data with
  | JObj top =>
      match dict_lookup top (lit "choices") with
      | Some (JArr (JObj first :: _)) =>
          match dict_lookup first (lit "message") with
          | Some (JObj message) => dict_lookup message (lit "content")
          | _ => None
          end
      | _ => None
      end
  | _ => None
  end.

(** ** Notions used to state the properties *)

(** The adapter [self] with [url] as its configured base URL. *)
Definition with_api_url (self : AITranslator.t) (url : str) : AITranslator.t :=
  {| AITranslator.api_url := url;
     AITranslator.api_key := AITranslator.api_key self;
     AITranslator.model := AITranslator.model self;
     AITranslator.system_prompt := AITranslator.system_prompt self;
     AITranslator.temperature := AITranslator.temperature self;
     AITranslator.debug := AITranslator.debug self |}.

(** Normalising the URL that normalisation returned. *)
Definition normalize_again {lib : Urllib} (self : AITranslator.t) : result str :=
  match AITranslator._get_api_url self with
  | Ok url => AITranslator._get_api_url (with_api_url self url)
  | Raise e => Raise e
  end.

(** The request [translate] posts to the normalised URL [url]
    (lines 142-147). *)
Definition posted_request (self : AITranslator.t)
    (text source_lang target_lang url : str) : http_request :=
  mk_request url
    (AITranslator._build_request_body self text source_lang target_lang)
    (AITranslator.request_headers self) 30.

(** What [if flag: print(line)] adds to the trace. *)
Definition log_lines (flag : bool) (line : str) : list event :=
  map EvPrint (if flag then [line] else []).

(** The transport that answers every request with [out]. *)
Definition always (out : post_outcome) : Transport :=
  {| session_post := fun _ => out |}.

(** An adapter for the examples: key [sk-test], model [gpt-4o-mini], the
    default prompt and temperature. *)
Definition example_adapter (url : string) (debug : bool) : AITranslator.t :=
  AITranslator.__init__ (lit url) (lit "sk-test") (lit "gpt-4o-mini")
    default_system_prompt default_temperature debug.

(** The parser of CPython 3.11 with validators that accept every network
    location. *)
Definition cpython : Urllib := CPython.urllib CPython.accept_all.

(** A response body [{"choices": [{"message": {"content": content}}]}]. *)
Definition completion (content : json) : json :=
  JObj [ (lit "choices",
          JArr [ JObj [ (lit "message", JObj [ (lit "content", content) ]) ] ]) ].

(** The character [c] does not occur in [s]. *)
Definition absent (c : N) (s : str) : bool :=
  forallb (fun x => negb (N.eqb x c)) s.

(** [s] holds no tab, carriage return or line feed. *)
Definition clean (s : str) : bool :=
  forallb (fun c => negb (CPython.unsafe_url_byte c)) s.

(** [s] is a scheme as [urlsplit] returns one: empty, or lower-case scheme
    characters after a letter. *)
Definition wf_scheme (s : str) : bool :=
  match s with
  | [] => true
  | c :: _ =>
      CPython.ascii_alpha c
      && forallb (fun x => char_in x CPython.scheme_chars) s
      && str_eqb (CPython.lower s) s
  end.

(** [sep] followed by [s] when [s] is not empty, as [urlunsplit] and
    [urlunparse] append the parameters, the query and the fragment. *)
Definition optional (sep : N) (s : str) : str :=
  if str_truthy s then sep :: s else [].

(** What [CPython.urlparse] guarantees about the components it returns
    with a network location that is not empty. *)
Record well_parsed (v : CPython.validators) (p : ParseResult) : Prop := {
  wp_scheme : wf_scheme (scheme p) = true;
  wp_netloc : absent 47 (netloc p) = true /\ absent 63 (netloc p) = true
              /\ absent 35 (netloc p) = true;
  wp_brackets : CPython.check_brackets v (netloc p) = Ok tt;
  wp_checked : CPython._checknetloc v (netloc p) = Ok tt;
  wp_path_head : path p = [] \/ exists t, path p = 47%N :: t;
  wp_path : absent 63 (path p) = true /\ absent 35 (path p) = true;
  wp_params : absent 47 (params p) = true /\ absent 63 (params p) = true
              /\ absent 35 (params p) = true;
  wp_uses_params : CPython.str_in_list (scheme p) CPython.uses_params = false ->
                   params p = [];
  wp_query : absent 35 (query p) = true;
  wp_clean : clean (netloc p) = true /\ clean (path p) = true
             /\ clean (params p) = true /\ clean (query p) = true
             /\ clean (fragment p) = true
}.

(** The request the example adapter posts for the text [hello], from [en]
    to [ja], when its base URL is [https://api.example.com/v1]. *)
Definition example_request (debug : bool) : http_request :=
  posted_request (example_adapter "https://api.example.com/v1" debug)
    (lit "hello") (lit "en") (lit "ja")
    (lit "https://api.example.com/v1/chat/completions").

(** A response with [status] whose body is the JSON document [body]. *)
Definition json_response (status : Z) (body : json) : response :=
  mk_response status (Ok []) (Ok body).

(** The adapter [self] with [flag] as its [debug] attribute. *)
Definition with_debug (self : AITranslator.t) (flag : bool) : AITranslator.t :=
  {| AITranslator.api_url := AITranslator.api_url self;
     AITranslator.api_key := AITranslator.api_key self;
     AITranslator.model := AITranslator.model self;
     AITranslator.system_prompt := AITranslator.system_prompt self;
     AITranslator.temperature := AITranslator.temperature self;
     AITranslator.debug := flag |}.

(** The line the [except] clauses of lines 179-192 print for [e]: the
    first clause that matches chooses it. *)
Definition exception_line (e : exn) : str :=
  if is_TimeoutError e then lit "[AI Translator] API request timeout"
  else if is_ClientError e then lit "[AI Translator] Network error: " ++ exn_str e
  else lit "[AI Translator] Unexpected error: " ++ exn_str e.

(** The arguments of one call of [init_translator]. *)
Record init_call : Type := mk_init_call {
  call_api_url : str;
  call_api_key : str;
  call_model : str;
  call_system_prompt : option str;
  call_temperature : pyfloat;
  call_debug : bool
}.

(** The adapter [AITranslator(...)] constructs from those arguments. *)
Definition adapter_of (c : init_call) : AITranslator.t :=
  AITranslator.__init__ (call_api_url c) (call_api_key c) (call_model c)
    (call_system_prompt c) (call_temperature c) (call_debug c).

(** The module after the calls of [init_translator] in [calls], made in
    order from the state [globals]. *)
Definition after_calls (calls : list init_call) (globals : module_state)
  : module_state :=
  fold_left
    (fun g c =>
       init_translator (call_api_url c) (call_api_key c) (call_model c)
         (call_system_prompt c) (call_temperature c) (call_debug c) g)
    calls globals.

(** * Properties *)

(** ** Strings *)

Lemma str_eqb_eq (a b : str) : str_eqb a b = true <-> a = b.
Proof.
  revert b; induction a as [|x a IH]; intros [|y b]; simpl;
    try (split; [discriminate | congruence]); [tauto |].
  rewrite andb_true_iff, N.eqb_eq, IH.
  split; [intros [-> ->]; reflexivity | intros E; injection E; auto].
Qed.

Lemma str_eqb_refl (a : str) : str_eqb a a = true.
Proof. apply str_eqb_eq; reflexivity. Qed.

Lemma endswith_app (pre suffix : str) : endswith (pre ++ suffix) suffix = true.
Proof.
  unfold endswith. rewrite length_app.
  replace (length pre + length suffix - length suffix)%nat with (length pre) by lia.
  rewrite skipn_app, skipn_all, Nat.sub_diag; simpl.
  rewrite str_eqb_refl, andb_true_r. apply Nat.leb_le; lia.
Qed.

Lemma endswith_inv (s suffix : str) :
  endswith s suffix = true -> exists pre, s = pre ++ suffix.
Proof.
  unfold endswith; intros H. apply andb_true_iff in H as [_ H].
  apply str_eqb_eq in H.
  exists (firstn (length s - length suffix) s).
  rewrite <- H at 2. symmetry; apply firstn_skipn.
Qed.

Lemma endswith_iff (s suffix : str) :
  endswith s suffix = true <-> exists pre, s = pre ++ suffix.
Proof.
  split; [apply endswith_inv | intros [pre ->]; apply endswith_app].
Qed.

Lemma endswith_assoc (a b suffix : str) :
  endswith b suffix = true -> endswith (a ++ b) suffix = true.
Proof.
  intros H; apply endswith_inv in H as [pre ->].
  rewrite app_assoc; apply endswith_app.
Qed.

Lemma substring_here (pre sub post : str) : substring sub (pre ++ sub ++ post).
Proof. exists pre, post; reflexivity. Qed.

Lemma substring_later (a sub s : str) : substring sub s -> substring sub (a ++ s).
Proof.
  intros (pre & post & ->). exists (a ++ pre), post. now rewrite <- app_assoc.
Qed.

(** Two slashes meet in [p ++ c :: q] where they meet in [p ++ [c]] or in
    [c :: q]. *)
Lemma count_double_slash_app (p : str) (c : N) (q : str) :
  count_double_slash (p ++ c :: q)
  = (count_double_slash (p ++ [c]) + count_double_slash (c :: q))%nat.
Proof.
  induction p as [|a [|b p] IH]; simpl in *.
  - reflexivity.
  - destruct q; simpl; lia.
  - rewrite IH. lia.
Qed.

Lemma count_double_slash_snoc (p : str) (c : N) :
  (forall base, p <> base ++ [47%N]) ->
  count_double_slash (p ++ [c]) = count_double_slash p.
Proof.
  induction p as [|a [|b p] IH]; intros Hlast; simpl in *.
  - reflexivity.
  - destruct (N.eqb_spec a 47) as [->|_]; [|reflexivity].
    exfalso; apply (Hlast []); reflexivity.
  - rewrite IH; [reflexivity|].
    intros base E; apply (Hlast (a :: base)); simpl; now rewrite E.
Qed.

Lemma dropwhile_split (p : N -> bool) (s : str) :
  s = takewhile p s ++ dropwhile p s.
Proof.
  induction s as [|c s IH]; simpl; [reflexivity|].
  destruct (p c); simpl; [now rewrite <- IH | reflexivity].
Qed.

Lemma takewhile_all (p : N -> bool) (s : str) : forallb p (takewhile p s) = true.
Proof.
  induction s as [|c s IH]; simpl; [reflexivity|].
  destruct (p c) eqn:E; simpl; [now rewrite E | reflexivity].
Qed.

Lemma dropwhile_head (p : N -> bool) (s : str) :
  match dropwhile p s with [] => True | c :: _ => p c = false end.
Proof.
  induction s as [|c s IH]; simpl; [exact I|].
  destruct (p c) eqn:E; [exact IH | exact E].
Qed.

Lemma forallb_rev (p : N -> bool) (s : str) :
  forallb p s = true -> forallb p (rev s) = true.
Proof.
  rewrite !forallb_forall. intros H x Hx. apply H, in_rev, Hx.
Qed.

(** [strip] removes exactly the leading and trailing whitespace. *)
Lemma strip_trimmed (s : str) : trimmed s (strip s).
Proof.
  unfold strip, rstrip, lstrip.
  set (l := dropwhile isspace s).
  set (d := dropwhile isspace (rev l)).
  assert (El : l = rev d ++ rev (takewhile isspace (rev l))).
  { rewrite <- rev_app_distr. unfold d. rewrite <- dropwhile_split.
    now rewrite rev_involutive. }
  repeat split.
  - exists (takewhile isspace s), (rev (takewhile isspace (rev l))).
    split; [|split].
    + rewrite <- El. apply dropwhile_split.
    + apply takewhile_all.
    + apply forallb_rev, takewhile_all.
  - pose proof (dropwhile_head isspace s) as Hl. fold l in Hl.
    rewrite El in Hl. destruct (rev d); simpl in *; [exact I | exact Hl].
  - rewrite rev_involutive. apply dropwhile_head.
Qed.

Lemma strip_nil : strip [] = [].
Proof. reflexivity. Qed.

(** ** URL normalisation *)

Section Normalisation.
Context {lib : Urllib}.

Import AITranslator.

Lemma _get_api_url_returns (self : t) : exists url, _get_api_url self = Ok url.
Proof.
  unfold _get_api_url. destruct (urlparse (api_url self)) as [parsed|e].
  - destruct (negb _); eauto.
  - eauto.
Qed.

Lemma _get_api_url_fallback (self : t) (e : exn) :
  urlparse (api_url self) = Raise e -> _get_api_url self = Ok (api_url self).
Proof. unfold _get_api_url; intros ->; reflexivity. Qed.

Lemma _get_api_url_unchanged (self : t) (parsed : ParseResult) :
  urlparse (api_url self) = Ok parsed ->
  endswith (path parsed) (lit "/chat/completions") = true ->
  _get_api_url self = Ok (api_url self).
Proof. unfold _get_api_url; intros -> ->; reflexivity. Qed.

(** Normalising twice is normalising once whenever the URL returned the
    first time parses to a path with the suffix. *)
Lemma normalize_again_complete (self : t) (url : str) (parsed : ParseResult) :
  _get_api_url self = Ok url ->
  urlparse url = Ok parsed ->
  endswith (path parsed) (lit "/chat/completions") = true ->
  normalize_again self = _get_api_url self.
Proof.
  intros Hurl Hparse Hsuffix. unfold normalize_again. rewrite Hurl.
  apply (_get_api_url_unchanged (with_api_url self url) (parsed := parsed));
    assumption.
Qed.

(** The path [_get_api_url] builds when the suffix is missing. *)
Lemma joined_path_cases (p : str) :
  let joined := if endswith p (lit "/")
                then p ++ lit "chat/completions"
                else p ++ lit "/chat/completions" in
  endswith joined (lit "/chat/completions") = true
  /\ (endswith p (lit "/") = false -> joined = p ++ lit "/chat/completions")
  /\ (forall base, p = base ++ lit "/" -> joined = base ++ lit "/chat/completions")
  /\ count_double_slash joined = count_double_slash p.
Proof.
  cbv zeta. destruct (endswith p (lit "/")) eqn:E.
  - apply endswith_inv in E as [base ->].
    repeat split.
    + rewrite <- app_assoc. apply endswith_app.
    + discriminate.
    + intros base' E'. apply app_inj_tail in E' as [-> _].
      now rewrite <- app_assoc.
    + rewrite <- app_assoc. change (lit "/" ++ lit "chat/completions")
        with (47%N :: lit "chat/completions").
      rewrite count_double_slash_app. change (lit "/") with [47%N].
      change (count_double_slash (47%N :: lit "chat/completions")) with 0%nat.
      lia.
  - repeat split.
    + apply endswith_app.
    + intros base ->. change (lit "/") with [47%N] in E.
      rewrite endswith_app in E. discriminate.
    + change (lit "/chat/completions") with (47%N :: lit "chat/completions").
      rewrite count_double_slash_app.
      change (count_double_slash (47%N :: lit "chat/completions")) with 0%nat.
      rewrite count_double_slash_snoc; [lia|].
      intros base ->. change [47%N] with (lit "/") in E.
      rewrite endswith_app in E. discriminate.
Qed.

End Normalisation.

(** C5.  When the parsed path of the configured base URL does not end
    with [/chat/completions], [_get_api_url] returns [urlunparse] of the
    parsed scheme, network location, parameters, query and fragment, all
    unchanged, and of a new path.  The new path ends with
    [/chat/completions]; it is the old path followed by
    [/chat/completions] when the old path has no trailing slash, and the
    old path with its one trailing slash replaced by [/chat/completions]
    when it has one, so the join adds no double slash: the new path has
    as many as the old one. *)
Theorem get_api_url_appends_suffix {lib : Urllib}
    (self : AITranslator.t) (parsed : ParseResult) :
  urlparse (AITranslator.api_url self) = Ok parsed ->
  endswith (path parsed) (lit "/chat/completions") = false ->
  exists new_path,
    AITranslator._get_api_url self
    = Ok (urlunparse (scheme parsed, netloc parsed, new_path,
                      params parsed, query parsed, fragment parsed))
    /\ endswith new_path (lit "/chat/completions") = true
    /\ (endswith (path parsed) (lit "/") = false ->
        new_path = path parsed ++ lit "/chat/completions")
    /\ (forall base, path parsed = base ++ lit "/" ->
        new_path = base ++ lit "/chat/completions")
    /\ count_double_slash new_path = count_double_slash (path parsed).
Proof.
  intros Hparse Hsuffix.
  exists (if endswith (path parsed) (lit "/")
          then path parsed ++ lit "chat/completions"
          else path parsed ++ lit "/chat/completions").
  split; [|apply joined_path_cases].
  unfold AITranslator._get_api_url. rewrite Hparse, Hsuffix. reflexivity.
Qed.

(** C6.  When the parsed path of the configured base URL already ends
    with [/chat/completions], [_get_api_url] returns the URL as it is
    configured, and normalising the returned URL again returns it once
    more. *)
Theorem get_api_url_noop_on_complete_url {lib : Urllib}
    (self : AITranslator.t) (parsed : ParseResult) :
  urlparse (AITranslator.api_url self) = Ok parsed ->
  endswith (path parsed) (lit "/chat/completions") = true ->
  AITranslator._get_api_url self = Ok (AITranslator.api_url self)
  /\ normalize_again self = AITranslator._get_api_url self.
Proof.
  intros Hparse Hsuffix.
  pose proof (_get_api_url_unchanged self Hparse Hsuffix) as E.
  split; [exact E|].
  unfold normalize_again. rewrite E.
  apply (_get_api_url_unchanged (with_api_url self (AITranslator.api_url self))
           (parsed := parsed)); assumption.
Qed.

(** C7.  [_get_api_url] never raises: it returns a URL for every
    configuration and every behaviour of the parser, and when [urlparse]
    raises, whatever the exception, the URL returned is the configured one,
    unmodified. *)
Theorem get_api_url_never_raises {lib : Urllib} (self : AITranslator.t) :
  (exists url, AITranslator._get_api_url self = Ok url)
  /\ (forall e, urlparse (AITranslator.api_url self) = Raise e ->
      AITranslator._get_api_url self = Ok (AITranslator.api_url self)).
Proof.
  split; [apply _get_api_url_returns | apply _get_api_url_fallback].
Qed.

(** ** Response bodies *)

(** Line 170 finds the content when the path to it exists; otherwise it
    falls back on the empty string or raises. *)
Lemma extract_content_spec (data : json) :
  match response_content data with
  | Some v => AITranslator.extract_content data = Ok v
  | None =>
      AITranslator.extract_content data = Ok (JStr [])
      \/ exists e, AITranslator.extract_content data = Raise e
  end.
Proof.
  unfold response_content, AITranslator.extract_content.
  destruct data as [| | | | |items|top]; simpl; eauto.
  destruct (dict_lookup top (lit "choices")) as [choices|]; simpl; eauto.
  destruct choices as [| | | |[|c cs]|[|first rest]|fs]; simpl; eauto.
  destruct first as [| | | | |items|first]; simpl; eauto.
  destruct (dict_lookup first (lit "message")) as [message|]; simpl; eauto.
  destruct message as [| | | | |items|message]; simpl; eauto.
  destruct (dict_lookup message (lit "content")); simpl; eauto.
Qed.

(** ** Runs of [translate] *)

Section Runs.
Context {lib : Urllib} {net : Transport}.

Import AITranslator.

Lemma handle_exception_run (self : t) (e : exn) :
  exists lines,
    handle_exception self e = (map EvPrint lines, Ok [])
    /\ (debug self = false -> lines = []).
Proof.
  unfold handle_exception.
  destruct (is_TimeoutError e); [|destruct (is_ClientError e)];
    destruct (debug self);
    solve [ eexists [_]; split; [reflexivity | discriminate]
          | exists []; split; reflexivity ].
Qed.

Lemma translate_empty (self : t) (source_lang target_lang : str) :
  translate self [] source_lang target_lang = ([], Ok []).
Proof. reflexivity. Qed.

Lemma translate_unfold (self : t) (text source_lang target_lang url : str) :
  str_truthy text = true ->
  _get_api_url self = Ok url ->
  translate self text source_lang target_lang
  = try_except
      (bind (await_post (posted_request self text source_lang target_lang url))
            (handle_response self))
      (handle_exception self).
Proof.
  intros Htext Hurl. unfold translate. rewrite Htext, Hurl; simpl.
  fold (posted_request self text source_lang target_lang url).
  now destruct (try_except _ _).
Qed.

Lemma translate_responds (self : t) (text source_lang target_lang url : str)
    (r : response) :
  str_truthy text = true ->
  _get_api_url self = Ok url ->
  session_post (posted_request self text source_lang target_lang url) = Responds r ->
  translate self text source_lang target_lang
  = try_except
      (EvPost (posted_request self text source_lang target_lang url)
         :: trace (handle_response self r),
       outcome (handle_response self r))
      (handle_exception self).
Proof.
  intros Htext Hurl Hpost. rewrite translate_unfold with (url := url) by assumption.
  unfold await_post. rewrite Hpost; simpl.
  now destruct (handle_response self r).
Qed.

Lemma translate_fails (self : t) (text source_lang target_lang url : str)
    (e : exn) :
  str_truthy text = true ->
  _get_api_url self = Ok url ->
  session_post (posted_request self text source_lang target_lang url) = Fails e ->
  translate self text source_lang target_lang
  = (EvPost (posted_request self text source_lang target_lang url)
       :: trace (handle_exception self e),
     outcome (handle_exception self e)).
Proof.
  intros Htext Hurl Hpost. rewrite translate_unfold with (url := url) by assumption.
  unfold await_post. rewrite Hpost; simpl.
  now destruct (handle_exception self e).
Qed.

(** Decides the comparisons of a status by [lia]. *)
Ltac settle_status :=
  repeat match goal with
  | |- context [(?a >=? ?b)%Z] => rewrite (Z.geb_leb a b)
  | |- context [(?a =? ?b)%Z] =>
      first [ replace (a =? b)%Z with true by (symmetry; apply Z.eqb_eq; lia)
            | replace (a =? b)%Z with false by (symmetry; apply Z.eqb_neq; lia) ]
  | |- context [(?a <=? ?b)%Z] =>
      first [ replace (a <=? b)%Z with true by (symmetry; apply Z.leb_le; lia)
            | replace (a <=? b)%Z with false by (symmetry; apply Z.leb_gt; lia) ]
  | |- context [(?a <? ?b)%Z] =>
      first [ replace (a <? b)%Z with true by (symmetry; apply Z.ltb_lt; lia)
            | replace (a <? b)%Z with false by (symmetry; apply Z.ltb_ge; lia) ]
  end.

Lemma print_if_run (flag : bool) (line : str) :
  print_if flag line = (log_lines flag line, Ok tt).
Proof. now destruct flag. Qed.

Lemma handle_response_401 (self : t) (r : response) :
  status r = 401%Z ->
  handle_response self r
  = (log_lines (debug self) (lit "[AI Translator] Invalid API Key"), Ok []).
Proof.
  intros E. unfold handle_response. settle_status.
  rewrite print_if_run; simpl. now rewrite app_nil_r.
Qed.

Lemma handle_response_429 (self : t) (r : response) :
  status r = 429%Z ->
  handle_response self r
  = (log_lines (debug self) (lit "[AI Translator] Rate limit exceeded"), Ok []).
Proof.
  intros E. unfold handle_response. settle_status.
  rewrite print_if_run; simpl. now rewrite app_nil_r.
Qed.

Lemma handle_response_5xx (self : t) (r : response) :
  (500 <= status r)%Z ->
  handle_response self r
  = (log_lines (debug self)
       (lit "[AI Translator] API server error: " ++ str_of_int (status r)),
     Ok []).
Proof.
  intros E. unfold handle_response. settle_status.
  rewrite print_if_run; simpl. now rewrite app_nil_r.
Qed.

Lemma handle_response_4xx (self : t) (r : response) :
  (400 <= status r < 500)%Z -> status r <> 401%Z -> status r <> 429%Z ->
  handle_response self r
  = match response_text r with
    | Ok body =>
        (EvReadText
           :: log_lines (debug self)
                (lit "[AI Translator] API error: " ++ str_of_int (status r)
                 ++ lit " - " ++ body),
         Ok [])
    | Raise e => ([EvReadText], Raise e)
    end.
Proof.
  intros E N1 N2. unfold handle_response, ok. settle_status. simpl.
  unfold await_text. destruct (response_text r) as [body|e]; simpl; [|reflexivity].
  rewrite print_if_run; simpl. now rewrite app_nil_r.
Qed.

(** Below 400, and neither 401 nor 429: the body is read as JSON. *)
Lemma handle_response_ok (self : t) (r : response) :
  (status r < 400)%Z ->
  handle_response self r
  = match response_json r with
    | Raise e => ([EvReadJson], Raise e)
    | Ok data =>
        match extract_content data with
        | Raise e => ([EvReadJson], Raise e)
        | Ok translated_text =>
            if truthy translated_text
            then ([EvReadJson], py_strip translated_text)
            else (EvReadJson
                    :: log_lines (debug self)
                         (lit "[AI Translator] Empty response from API"),
                  Ok [])
        end
    end.
Proof.
  intros E. unfold handle_response, ok. settle_status. simpl.
  unfold await_json. destruct (response_json r) as [data|e]; simpl; [|reflexivity].
  destruct (extract_content data) as [v|e]; simpl; [|reflexivity].
  destruct (truthy v); simpl.
  - now destruct (py_strip v).
  - rewrite print_if_run; simpl. now rewrite app_nil_r.
Qed.

(** What handling a response adds to the trace: at most one read of the
    body, then printed lines; the JSON body is read only below 400. *)
Lemma handle_response_run (self : t) (r : response) :
  exists reads lines,
    trace (handle_response self r) = reads ++ map EvPrint lines
    /\ (reads = [] \/ reads = [EvReadText]
        \/ (reads = [EvReadJson] /\ (status r < 400)%Z)).
Proof.
  remember (handle_response self r) as run eqn:Erun.
  destruct (Z.eq_dec (status r) 401) as [E1|N1];
    [rewrite handle_response_401 in Erun by assumption; subst run;
     exists []; unfold log_lines; eexists; split; [reflexivity | auto] |].
  destruct (Z.eq_dec (status r) 429) as [E2|N2];
    [rewrite handle_response_429 in Erun by assumption; subst run;
     exists []; unfold log_lines; eexists; split; [reflexivity | auto] |].
  destruct (Z_le_gt_dec 500 (status r)) as [E5|N5];
    [rewrite handle_response_5xx in Erun by assumption; subst run;
     exists []; unfold log_lines; eexists; split; [reflexivity | auto] |].
  destruct (Z_lt_ge_dec (status r) 400) as [Eok|E4].
  - rewrite handle_response_ok in Erun by assumption.
    destruct (response_json r) as [data|e];
      [|subst run; exists [EvReadJson], []; auto].
    destruct (extract_content data) as [v|e];
      [|subst run; exists [EvReadJson], []; auto].
    destruct (truthy v); subst run; [exists [EvReadJson], []; auto|].
    unfold log_lines. exists [EvReadJson]. eexists. split; [reflexivity|auto].
  - rewrite handle_response_4xx in Erun by (try assumption; lia).
    destruct (response_text r) as [body|e]; subst run;
      [|exists [EvReadText], []; auto].
    unfold log_lines. exists [EvReadText]. eexists. split; [reflexivity|auto].
Qed.

Lemma prints_not_post (lines : list str) (q : http_request) :
  ~ In (EvPost q) (map EvPrint lines).
Proof. intros Hin; apply in_map_iff in Hin as (l & E & _); discriminate. Qed.

Lemma prints_not_read_json (lines : list str) : ~ In EvReadJson (map EvPrint lines).
Proof. intros Hin; apply in_map_iff in Hin as (l & E & _); discriminate. Qed.

Lemma handle_response_no_post (self : t) (r : response) (q : http_request) :
  ~ In (EvPost q) (trace (handle_response self r)).
Proof.
  destruct (handle_response_run self r) as (reads & lines & -> & Hreads).
  intros Hin; apply in_app_or in Hin as [Hin|Hin];
    [|exact (prints_not_post _ _ Hin)].
  destruct Hreads as [->|[->|[-> _]]]; simpl in Hin;
    [tauto | destruct Hin as [E|[]]; discriminate..].
Qed.

Lemma handle_response_no_json_read (self : t) (r : response) :
  (400 <= status r)%Z -> ~ In EvReadJson (trace (handle_response self r)).
Proof.
  intros E. destruct (handle_response_run self r) as (reads & lines & -> & Hreads).
  intros Hin; apply in_app_or in Hin as [Hin|Hin];
    [|exact (prints_not_read_json _ Hin)].
  destruct Hreads as [->|[->|[-> Hlt]]]; simpl in Hin;
    [tauto | destruct Hin as [E'|[]]; discriminate | lia].
Qed.

(** The [except] clauses turn every exception into the empty string. *)
Lemma try_except_outcome (self : t) (t0 : list event) (o : result str) :
  outcome (try_except (t0, o) (handle_exception self))
  = Ok (match o with Ok s => s | Raise _ => [] end).
Proof.
  destruct o as [s|e]; simpl; [reflexivity|].
  destruct (handle_exception_run self e) as (lines & -> & _). reflexivity.
Qed.

Lemma try_except_trace (self : t) (t0 : list event) (o : result str) :
  exists lines,
    trace (try_except (t0, o) (handle_exception self)) = t0 ++ map EvPrint lines
    /\ (forall s, o = Ok s -> lines = []).
Proof.
  destruct o as [s|e]; simpl.
  - exists []. now rewrite app_nil_r.
  - destruct (handle_exception_run self e) as (lines & -> & _).
    exists lines. split; [reflexivity | discriminate].
Qed.

(** [translate] always returns a string. *)
Lemma translate_returns (self : t) (text source_lang target_lang : str) :
  exists s, outcome (translate self text source_lang target_lang) = Ok s.
Proof.
  destruct (str_truthy text) eqn:Htext.
  - destruct (_get_api_url_returns self) as [url Hurl].
    rewrite translate_unfold with (url := url) by assumption.
    destruct (bind _ _) as [t0 o]. rewrite try_except_outcome. eauto.
  - unfold translate. rewrite Htext. simpl. eauto.
Qed.

(** The request found in the trace of a run is the one [translate] built,
    and the text was not empty. *)
Lemma posted_inv (self : t) (text source_lang target_lang : str)
    (req : http_request) :
  In (EvPost req) (trace (translate self text source_lang target_lang)) ->
  str_truthy text = true
  /\ exists url, _get_api_url self = Ok url
                 /\ req = posted_request self text source_lang target_lang url.
Proof.
  intros Hin. destruct (str_truthy text) eqn:Htext.
  2:{ unfold translate in Hin. rewrite Htext in Hin. destruct Hin. }
  split; [reflexivity|].
  destruct (_get_api_url_returns self) as [url Hurl].
  exists url. split; [assumption|].
  set (req0 := posted_request self text source_lang target_lang url) in *.
  destruct (session_post req0) as [r|e] eqn:Hpost.
  - rewrite translate_responds with (url := url) (r := r) in Hin by assumption.
    destruct (try_except_trace self
                (EvPost req0 :: trace (handle_response self r))
                (outcome (handle_response self r))) as (lines & Ht & _).
    fold req0 in Hin. rewrite Ht in Hin.
    apply in_app_or in Hin as [[E|Hin]|Hin].
    + congruence.
    + destruct (handle_response_no_post _ _ _ Hin).
    + destruct (prints_not_post _ _ Hin).
  - rewrite translate_fails with (url := url) (e := e) in Hin by assumption.
    destruct (handle_exception_run self e) as (lines & Hh & _).
    fold req0 in Hin. rewrite Hh in Hin. simpl in Hin.
    destruct Hin as [E|Hin]; [congruence | destruct (prints_not_post _ _ Hin)].
Qed.

(** A call with a text posts one request, a call without posts none. *)
Lemma translate_posts_once (self : t) (text source_lang target_lang : str) :
  length (filter is_post (trace (translate self text source_lang target_lang)))
  = if str_truthy text then 1%nat else 0%nat.
Proof.
  destruct (str_truthy text) eqn:Htext.
  2:{ unfold translate. rewrite Htext. reflexivity. }
  destruct (_get_api_url_returns self) as [url Hurl].
  set (req0 := posted_request self text source_lang target_lang url).
  assert (Hquiet : forall lines, filter is_post (map EvPrint lines) = []).
  { induction lines; simpl; auto. }
  destruct (session_post req0) as [r|e] eqn:Hpost.
  - rewrite translate_responds with (url := url) (r := r) by assumption.
    destruct (try_except_trace self
                (EvPost req0 :: trace (handle_response self r))
                (outcome (handle_response self r))) as (lines & Ht & _).
    fold req0. rewrite Ht.
    destruct (handle_response_run self r) as (reads & lines' & -> & Hreads).
    simpl. rewrite !filter_app, !Hquiet.
    destruct Hreads as [->|[->|[-> _]]]; reflexivity.
  - rewrite translate_fails with (url := url) (e := e) by assumption.
    destruct (handle_exception_run self e) as (lines & -> & _).
    simpl. now rewrite Hquiet.
Qed.

End Runs.

Section Handling.
Context {lib : Urllib} {net : Transport}.

Import AITranslator.

(** At 400 and above the handling ends with the empty string, or with the
    exception raised by reading the error text. *)
Lemma handle_response_error_outcome (self : t) (r : response) :
  (400 <= status r)%Z ->
  match outcome (handle_response self r) with Ok s => s | Raise _ => [] end = [].
Proof.
  intros E.
  destruct (Z.eq_dec (status r) 401) as [E1|N1];
    [now rewrite handle_response_401|].
  destruct (Z.eq_dec (status r) 429) as [E2|N2];
    [now rewrite handle_response_429|].
  destruct (Z_le_gt_dec 500 (status r)) as [E5|N5];
    [now rewrite handle_response_5xx|].
  rewrite handle_response_4xx by (try assumption; lia).
  now destruct (response_text r).
Qed.

(** Below 400 the handling ends with the stripped content when the body
    holds a string there, and otherwise with the empty string or an
    exception. *)
Lemma handle_response_ok_outcome (self : t) (r : response) :
  (status r < 400)%Z ->
  match outcome (handle_response self r) with Ok s => s | Raise _ => [] end
  = match response_json r with
    | Raise _ => []
    | Ok data =>
        match response_content data with
        | Some (JStr s) => strip s
        | _ => []
        end
    end.
Proof.
  intros E. rewrite handle_response_ok by assumption.
  destruct (response_json r) as [data|e]; [|reflexivity].
  pose proof (extract_content_spec data) as Hx.
  destruct (response_content data) as [v|].
  - rewrite Hx. destruct v as [|b|n|x|s|items|fields]; simpl;
      try reflexivity.
    + now destruct b.
    + now destruct (negb (n =? 0)%Z).
    + destruct x as [q| |]; [now destruct (negb (Qnum q =? 0)%Z) | reflexivity..].
    + now destruct s.
    + now destruct items.
    + now destruct fields.
  - destruct Hx as [-> | [e ->]]; reflexivity.
Qed.

End Handling.

(** ** The claims about [translate] *)

(** C1.  [translate] never raises.  For every configuration, every text
    and language arguments, every parser and every transport, the call
    returns a string.  When the request it posted fails with an exception
    (a timeout, a network error or any other), and when the response
    arrives but reading its JSON body raises, the string returned is the
    empty string. *)
Theorem translate_never_raises {lib : Urllib} {net : Transport}
    (self : AITranslator.t) (text source_lang target_lang : str) :
  let run := AITranslator.translate self text source_lang target_lang in
  (exists s, outcome run = Ok s)
  /\ (forall req e,
        In (EvPost req) (trace run) -> session_post req = Fails e ->
        outcome run = Ok [])
  /\ (forall req r e,
        In (EvPost req) (trace run) -> session_post req = Responds r ->
        response_json r = Raise e ->
        outcome run = Ok []).
Proof.
  cbv zeta. split; [apply translate_returns|]. split.
  - intros req e Hin Hpost.
    destruct (posted_inv _ _ _ _ _ Hin) as (Htext & url & Hurl & ->).
    rewrite translate_fails with (url := url) (e := e) by assumption.
    destruct (handle_exception_run self e) as (lines & -> & _).
    reflexivity.
  - intros req r e Hin Hpost Hjson.
    destruct (posted_inv _ _ _ _ _ Hin) as (Htext & url & Hurl & ->).
    rewrite translate_responds with (url := url) (r := r) by assumption.
    rewrite try_except_outcome. f_equal.
    destruct (Z_lt_ge_dec (status r) 400) as [Eok|E4].
    + rewrite handle_response_ok_outcome by assumption. now rewrite Hjson.
    + apply handle_response_error_outcome; lia.
Qed.

(** C2.  A response with a 2xx status.  [translate] returns a string
    [out].  When the JSON body holds a string at
    [choices[0].message.content], [out] is that string stripped, that is
    without its leading and trailing whitespace (the empty string when the
    content is empty).  When reading the body raises, when a step of the
    path is absent (an empty [choices] array included) and when the
    content is not a string, [out] is the empty string. *)
Theorem translate_success_content {lib : Urllib} {net : Transport}
    (self : AITranslator.t) (text source_lang target_lang : str)
    (req : http_request) (r : response) :
  let run := AITranslator.translate self text source_lang target_lang in
  In (EvPost req) (trace run) ->
  session_post req = Responds r ->
  (200 <= status r <= 299)%Z ->
  exists out,
    outcome run = Ok out
    /\ match response_json r with
       | Raise _ => out = []
       | Ok data =>
           match response_content data with
           | Some (JStr s) => out = strip s /\ trimmed s out
           | _ => out = []
           end
       end.
Proof.
  cbv zeta. intros Hin Hpost Hstatus.
  destruct (posted_inv _ _ _ _ _ Hin) as (Htext & url & Hurl & ->).
  rewrite translate_responds with (url := url) (r := r) by assumption.
  rewrite try_except_outcome. eexists; split; [reflexivity|].
  rewrite handle_response_ok_outcome by lia.
  destruct (response_json r) as [data|e]; [|reflexivity].
  destruct (response_content data) as [[| | | |s| |]|]; try reflexivity.
  split; [reflexivity | apply strip_trimmed].
Qed.

(** C3, as the code has it.  A response with a status of 400 or above
    (401, 429, 500 and above, and every other one): [translate] returns the
    empty string and never reads the JSON body.  The checks are made in
    order and the first that matches ends the call: at 401, at 429 and at
    500 and above nothing is read from the response and the line printed
    under [debug] is the one of that check; at every other status from 400
    the error text is read and printed. *)
Theorem translate_error_status {lib : Urllib} {net : Transport}
    (self : AITranslator.t) (text source_lang target_lang : str)
    (req : http_request) (r : response) :
  let run := AITranslator.translate self text source_lang target_lang in
  let debug := AITranslator.debug self in
  In (EvPost req) (trace run) ->
  session_post req = Responds r ->
  (400 <= status r)%Z ->
  outcome run = Ok []
  /\ ~ In EvReadJson (trace run)
  /\ (status r = 401%Z ->
      trace run
      = EvPost req :: log_lines debug (lit "[AI Translator] Invalid API Key"))
  /\ (status r = 429%Z ->
      trace run
      = EvPost req :: log_lines debug (lit "[AI Translator] Rate limit exceeded"))
  /\ ((500 <= status r)%Z ->
      trace run
      = EvPost req
          :: log_lines debug
               (lit "[AI Translator] API server error: " ++ str_of_int (status r)))
  /\ ((status r < 500)%Z -> status r <> 401%Z -> status r <> 429%Z ->
      forall body, response_text r = Ok body ->
      trace run
      = EvPost req :: EvReadText
          :: log_lines debug
               (lit "[AI Translator] API error: " ++ str_of_int (status r)
                ++ lit " - " ++ body)).
Proof.
  cbv zeta. intros Hin Hpost Hstatus.
  destruct (posted_inv _ _ _ _ _ Hin) as (Htext & url & Hurl & ->).
  rewrite translate_responds with (url := url) (r := r) by assumption.
  clear Hin. split; [|split; [|repeat split]].
  - rewrite try_except_outcome.
    now rewrite handle_response_error_outcome.
  - destruct (try_except_trace self
                (EvPost (posted_request self text source_lang target_lang url)
                   :: trace (AITranslator.handle_response self r))
                (outcome (AITranslator.handle_response self r)))
      as (lines & -> & _).
    intros Hin; apply in_app_or in Hin as [[E|Hin]|Hin].
    + discriminate.
    + now apply handle_response_no_json_read in Hin.
    + now apply prints_not_read_json in Hin.
  - intros E. now rewrite handle_response_401.
  - intros E. now rewrite handle_response_429.
  - intros E. now rewrite handle_response_5xx.
  - intros E N1 N2 body Hbody.
    rewrite handle_response_4xx by (try assumption; lia).
    now rewrite Hbody.
Qed.

(** C4.  With the empty string as text, [translate] returns the empty
    string at once: the run has no effect at all, so no request is posted,
    whatever the transport would answer. *)
Theorem translate_empty_text {lib : Urllib} {net : Transport}
    (self : AITranslator.t) (source_lang target_lang : str) :
  let run := AITranslator.translate self [] source_lang target_lang in
  outcome run = Ok []
  /\ trace run = []
  /\ forall req, ~ In (EvPost req) (trace run).
Proof.
  cbv zeta. rewrite translate_empty. repeat split. intros req [].
Qed.

(** ** The request body and the configuration *)

(** C8.  The request body holds, under [messages], exactly two messages:
    first the one of role [system] with the configured system prompt, then
    the one of role [user].  The content of the user message is the
    template of lines 99-105: it contains [source_lang], [target_lang] and
    the text between two lines of three quotation marks, and it ends with
    [Translation:].  The body holds the configured model under [model] and
    the configured temperature under [temperature]. *)
Theorem build_request_body_shape
    (self : AITranslator.t) (text source_lang target_lang : str) :
  let body := AITranslator._build_request_body self text source_lang target_lang in
  exists user_content,
    py_get body (lit "messages") JNull
    = Ok (JArr [ JObj [ (lit "role", JStr (lit "system"));
                        (lit "content", JStr (AITranslator.system_prompt self)) ];
                 JObj [ (lit "role", JStr (lit "user"));
                        (lit "content", JStr user_content) ] ])
    /\ user_content = AITranslator.user_message text source_lang target_lang
    /\ substring source_lang user_content
    /\ substring target_lang user_content
    /\ substring (triple_quote ++ LF ++ text ++ LF ++ triple_quote) user_content
    /\ endswith user_content (lit "Translation:") = true
    /\ py_get body (lit "model") JNull = Ok (JStr (AITranslator.model self))
    /\ py_get body (lit "temperature") JNull
       = Ok (JFloat (AITranslator.temperature self)).
Proof.
  cbv zeta. eexists. split; [reflexivity|]. split; [reflexivity|].
  unfold AITranslator.user_message. repeat split.
  - apply substring_here.
  - do 3 apply substring_later. apply substring_here.
  - do 8 apply substring_later.
    exists [], (LF ++ lit "Translation:"). simpl.
    now rewrite <- !app_assoc.
  - do 14 apply endswith_assoc. apply (endswith_app []).
Qed.

(** C9.  Before [init_translator] has been called, the module-level
    [translate] prints the line saying that the translator is not
    initialised, does nothing else, and returns the empty string, for every
    text and language arguments. *)
Theorem translate_before_init {lib : Urllib} {net : Transport}
    (text source_lang target_lang : str) :
  translate module_loaded text source_lang target_lang
  = ([EvPrint (lit "[AI Translator] Translator not initialized. Call init_translator() first.")],
     Ok []).
Proof. reflexivity. Qed.

(** Once [init_translator] has been called the translator is set. *)
Lemma init_translator_sets (api_url api_key model : str)
    (system_prompt : option str) (temperature : pyfloat) (debug : bool)
    (globals : module_state) :
  _translator (init_translator api_url api_key model system_prompt
                 temperature debug globals) <> None.
Proof. discriminate. Qed.

Lemma DEFAULT_SYSTEM_PROMPT_not_empty : DEFAULT_SYSTEM_PROMPT <> [].
Proof. discriminate. Qed.

Lemma stored_prompt_not_empty (api_url api_key model : str)
    (system_prompt : option str) (temperature : pyfloat) (debug : bool) :
  AITranslator.system_prompt
    (AITranslator.__init__ api_url api_key model system_prompt temperature debug)
  <> [].
Proof.
  simpl. destruct system_prompt as [[|c s]|]; simpl;
    solve [discriminate | apply DEFAULT_SYSTEM_PROMPT_not_empty].
Qed.

(** C10.  An adapter constructed with the empty string as [system_prompt],
    directly or through [init_translator], stores the built-in default
    prompt, as it does with [None].  The stored prompt is never empty,
    whatever [system_prompt] is, and it is the content of the system
    message of every request body. *)
Theorem empty_system_prompt_is_default (api_url api_key model : str)
    (temperature : pyfloat) (debug : bool) :
  AITranslator.system_prompt
    (AITranslator.__init__ api_url api_key model (Some []) temperature debug)
  = DEFAULT_SYSTEM_PROMPT
  /\ AITranslator.system_prompt
       (AITranslator.__init__ api_url api_key model None temperature debug)
     = DEFAULT_SYSTEM_PROMPT
  /\ (forall globals,
        option_map AITranslator.system_prompt
          (_translator (init_translator api_url api_key model (Some [])
                          temperature debug globals))
        = Some DEFAULT_SYSTEM_PROMPT)
  /\ (forall system_prompt,
        let self := AITranslator.__init__ api_url api_key model system_prompt
                      temperature debug in
        AITranslator.system_prompt self <> []
        /\ forall text source_lang target_lang,
             exists user,
               py_get (AITranslator._build_request_body self text
                         source_lang target_lang)
                      (lit "messages") JNull
               = Ok (JArr [ JObj [ (lit "role", JStr (lit "system"));
                                   (lit "content",
                                    JStr (AITranslator.system_prompt self)) ];
                            user ])).
Proof.
  repeat split; try reflexivity.
  - apply stored_prompt_not_empty.
  - intros. eexists. reflexivity.
Qed.

(** ** The claims on concrete inputs *)

(** A timed-out request ends in the empty string. *)
Lemma translate_never_raises_witness :
  outcome
    (AITranslator.translate (lib := cpython)
       (net := always (Fails (mk_exn TimeoutError [])))
       (example_adapter "https://api.example.com/v1" true)
       (lit "hello") (lit "en") (lit "ja"))
  = Ok [].
Proof.
  apply (proj1 (proj2
           (translate_never_raises (lib := cpython)
              (net := always (Fails (mk_exn TimeoutError [])))
              (example_adapter "https://api.example.com/v1" true)
              (lit "hello") (lit "en") (lit "ja")))
           (example_request true) (mk_exn TimeoutError [])).
  - vm_compute. left. reflexivity.
  - reflexivity.
Defined.

(** Status 200 and the content [  こんにちは  ], written by its code
    points: the five letters are returned. *)
Lemma translate_success_content_witness :
  exists out,
    outcome
      (AITranslator.translate (lib := cpython)
         (net := always (Responds (json_response 200
                   (completion (JStr [32; 32; 12371; 12435; 12395; 12385; 12399; 32; 32]%N)))))
         (example_adapter "https://api.example.com/v1" false)
         (lit "hello") (lit "en") (lit "ja"))
    = Ok out
    /\ out = [12371; 12435; 12395; 12385; 12399]%N.
Proof.
  destruct (translate_success_content (lib := cpython)
              (net := always (Responds (json_response 200
                   (completion (JStr [32; 32; 12371; 12435; 12395; 12385; 12399; 32; 32]%N)))))
              (example_adapter "https://api.example.com/v1" false)
              (lit "hello") (lit "en") (lit "ja")
              (example_request false)
              (r := json_response 200
                   (completion (JStr [32; 32; 12371; 12435; 12395; 12385; 12399; 32; 32]%N))))
    as (out & Hout & Hcontent).
  - vm_compute. left. reflexivity.
  - reflexivity.
  - simpl. lia.
  - exists out. split; [exact Hout|]. simpl in Hcontent.
    destruct Hcontent as [-> _]. reflexivity.
Defined.

(** C3 as stated fails: status 300 is not a 2xx status, and a response
    with status 300 and a completion body makes [translate] return the
    content, not the empty string. *)
Lemma translate_status_300_returns_content :
  ~ (200 <= status (json_response 300 (completion (JStr (lit "hi")))) <= 299)%Z
  /\ session_post (Transport := always (Responds (json_response 300
                     (completion (JStr (lit "hi"))))))
       (example_request false)
     = Responds (json_response 300 (completion (JStr (lit "hi"))))
  /\ AITranslator.translate (lib := cpython)
       (net := always (Responds (json_response 300
                 (completion (JStr (lit "hi"))))))
       (example_adapter "https://api.example.com/v1" false)
       (lit "hello") (lit "en") (lit "ja")
     = ([EvPost (example_request false); EvReadJson], Ok (lit "hi"))
  /\ lit "hi" <> [].
Proof.
  split; [simpl; lia|]. split; [reflexivity|]. split; [reflexivity|discriminate].
Qed.

(** Status 401 under [debug]: the empty string, and the line of the first
    check. *)
Lemma translate_error_status_witness :
  outcome
    (AITranslator.translate (lib := cpython)
       (net := always (Responds (json_response 401 (completion (JStr (lit "hi"))))))
       (example_adapter "https://api.example.com/v1" true)
       (lit "hello") (lit "en") (lit "ja"))
  = Ok []
  /\ trace
       (AITranslator.translate (lib := cpython)
          (net := always (Responds (json_response 401 (completion (JStr (lit "hi"))))))
          (example_adapter "https://api.example.com/v1" true)
          (lit "hello") (lit "en") (lit "ja"))
     = [EvPost (example_request true);
        EvPrint (lit "[AI Translator] Invalid API Key")].
Proof.
  destruct (translate_error_status (lib := cpython)
              (net := always (Responds (json_response 401 (completion (JStr (lit "hi"))))))
              (example_adapter "https://api.example.com/v1" true)
              (lit "hello") (lit "en") (lit "ja")
              (example_request true)
              (r := json_response 401 (completion (JStr (lit "hi")))))
    as (Hout & _ & H401 & _).
  - vm_compute. left. reflexivity.
  - reflexivity.
  - simpl. lia.
  - split; [exact Hout | exact (H401 eq_refl)].
Defined.

(** The first example of the specification:
    [https://api.example.com/v1]. *)
Lemma get_api_url_appends_suffix_witness :
  AITranslator._get_api_url (lib := cpython)
    (example_adapter "https://api.example.com/v1" false)
  = Ok (lit "https://api.example.com/v1/chat/completions").
Proof.
  destruct (get_api_url_appends_suffix (lib := cpython)
              (example_adapter "https://api.example.com/v1" false)
              (parsed := mk_ParseResult (lit "https") (lit "api.example.com")
                           (lit "/v1") [] [] []))
    as (new_path & Hurl & _ & Hjoin & _).
  - reflexivity.
  - reflexivity.
  - rewrite Hurl, (Hjoin eq_refl). reflexivity.
Defined.

(** A complete URL is returned as it is, once and twice. *)
Lemma get_api_url_noop_on_complete_url_witness :
  AITranslator._get_api_url (lib := cpython)
    (example_adapter "https://api.example.com/v1/chat/completions" false)
  = Ok (lit "https://api.example.com/v1/chat/completions")
  /\ normalize_again (lib := cpython)
       (example_adapter "https://api.example.com/v1/chat/completions" false)
     = AITranslator._get_api_url (lib := cpython)
         (example_adapter "https://api.example.com/v1/chat/completions" false).
Proof.
  apply (get_api_url_noop_on_complete_url (lib := cpython)
           (example_adapter "https://api.example.com/v1/chat/completions" false)
           (parsed := mk_ParseResult (lit "https") (lit "api.example.com")
                        (lit "/v1/chat/completions") [] [] [])).
  - reflexivity.
  - reflexivity.
Defined.

(** A URL with an unclosed bracket, on which [urlparse] raises
    [ValueError], is returned unmodified. *)
Lemma get_api_url_never_raises_witness :
  AITranslator._get_api_url (lib := cpython)
    (example_adapter "http://[::1/v1" false)
  = Ok (lit "http://[::1/v1").
Proof.
  apply (proj2 (get_api_url_never_raises (lib := cpython)
                  (example_adapter "http://[::1/v1" false))
           CPython.invalid_ipv6).
  reflexivity.
Defined.

(** ** The examples of the specification *)

Example normalise_with_trailing_slash :
  AITranslator._get_api_url (lib := cpython)
    (example_adapter "https://api.example.com/v1/" false)
  = Ok (lit "https://api.example.com/v1/chat/completions").
Proof. reflexivity. Qed.

Example normalise_keeps_query_and_fragment :
  AITranslator._get_api_url (lib := cpython)
    (example_adapter "HTTPS://gw.example.com/openai;v=1?key=a#frag" false)
  = Ok (lit "https://gw.example.com/openai/chat/completions;v=1?key=a#frag").
Proof. reflexivity. Qed.

Example empty_choices_give_empty_string :
  outcome
    (AITranslator.translate (lib := cpython)
       (net := always (Responds (json_response 200
                 (JObj [(lit "choices", JArr [])]))))
       (example_adapter "https://api.example.com/v1" false)
       (lit "hello") (lit "en") (lit "ja"))
  = Ok [].
Proof. reflexivity. Qed.

Example empty_choices_log :
  printed (trace
    (AITranslator.translate (lib := cpython)
       (net := always (Responds (json_response 200
                 (JObj [(lit "choices", JArr [])]))))
       (example_adapter "https://api.example.com/v1" true)
       (lit "hello") (lit "en") (lit "ja")))
  = [lit "[AI Translator] Unexpected error: list index out of range"].
Proof. reflexivity. Qed.

(** aiohttp's [ServerTimeoutError] is both a timeout and a client error;
    the first [except] clause takes it. *)
Example server_timeout_is_logged_as_timeout :
  AITranslator.translate (lib := cpython)
    (net := always (Fails (mk_exn ServerTimeoutError (lit "Connection timeout"))))
    (example_adapter "https://api.example.com/v1" true)
    (lit "hello") (lit "en") (lit "ja")
  = ([EvPost (example_request true);
      EvPrint (lit "[AI Translator] API request timeout")], Ok []).
Proof. reflexivity. Qed.

(** Whether the URL that normalisation returns parses back to a path with
    the suffix is a property of the library.  CPython 3.11 writes a path
    that starts with two slashes, under an empty network location, as a
    URL whose network location is the first segment of that path. *)
Example cpython_3_11_rewrites_double_slash_path :
  AITranslator._get_api_url (lib := cpython) (example_adapter "http:////" false)
  = Ok (lit "http://chat/completions")
  /\ normalize_again (lib := cpython) (example_adapter "http:////" false)
     = Ok (lit "http://chat/completions/chat/completions").
Proof. split; reflexivity. Qed.

(** ** Parsing back what CPython's [urlunparse] wrote

    The URL that normalisation returns is parsed by [urlparse] into the
    components it was written from, whenever the network location is not
    empty. *)

Section ParsingBack.

Import CPython.

Lemma absent_app (c : N) (a b : str) :
  absent c (a ++ b) = absent c a && absent c b.
Proof. apply forallb_app. Qed.

Lemma absent_cons (c x : N) (s : str) :
  absent c (x :: s) = negb (N.eqb x c) && absent c s.
Proof. reflexivity. Qed.

Lemma filter_all (p : N -> bool) (s : str) :
  forallb p s = true -> filter p s = s.
Proof.
  induction s as [|x s IH]; simpl; [reflexivity|].
  intros E; apply andb_true_iff in E as [-> E]. now rewrite IH.
Qed.

Lemma find_from_0_app (c : N) (a b : str) :
  absent c a = true -> find_from c (a ++ c :: b) 0 = Some (length a).
Proof.
  induction a as [|x a IH]; simpl.
  - now rewrite N.eqb_refl.
  - intros E; apply andb_true_iff in E as [Ex E].
    apply negb_true_iff in Ex. rewrite Ex, IH by assumption. reflexivity.
Qed.

Lemma find_from_0_absent (c : N) (s : str) :
  absent c s = true -> find_from c s 0 = None.
Proof.
  induction s as [|x s IH]; simpl; [reflexivity|].
  intros E; apply andb_true_iff in E as [Ex E].
  apply negb_true_iff in Ex. rewrite Ex, IH by assumption. reflexivity.
Qed.

Lemma firstn_before (a : str) (c : N) (b : str) :
  firstn (length a) (a ++ c :: b) = a.
Proof. induction a as [|x a IH]; simpl; [reflexivity | now rewrite IH]. Qed.

Lemma skipn_after (a : str) (c : N) (b : str) :
  skipn (S (length a)) (a ++ c :: b) = b.
Proof. induction a as [|x a IH]; simpl; [reflexivity | exact IH]. Qed.

Lemma split_first_app (c : N) (a b : str) :
  absent c a = true -> split_first c (a ++ c :: b) = Some (a, b).
Proof.
  intros E. unfold split_first. rewrite find_from_0_app by assumption.
  now rewrite firstn_before, skipn_after.
Qed.

Lemma split_first_absent (c : N) (s : str) :
  absent c s = true -> split_first c s = None.
Proof. intros E. unfold split_first. now rewrite find_from_0_absent. Qed.

Lemma split_off_optional (c : N) (a b : str) :
  absent c a = true -> split_off c (a ++ optional c b) = (a, b).
Proof.
  intros E. unfold split_off, optional. destruct b as [|x b]; simpl.
  - rewrite app_nil_r, split_first_absent by assumption. reflexivity.
  - now rewrite split_first_app.
Qed.

Lemma takewhile_app (p : N -> bool) (a : str) (c : N) (b : str) :
  forallb p a = true -> p c = false -> takewhile p (a ++ c :: b) = a.
Proof.
  intros Ea Ec. induction a as [|x a IH]; simpl in *.
  - now rewrite Ec.
  - apply andb_true_iff in Ea as [-> Ea]. now rewrite IH.
Qed.

Lemma dropwhile_app (p : N -> bool) (a : str) (c : N) (b : str) :
  forallb p a = true -> p c = false -> dropwhile p (a ++ c :: b) = c :: b.
Proof.
  intros Ea Ec. induction a as [|x a IH]; simpl in *.
  - now rewrite Ec.
  - apply andb_true_iff in Ea as [-> Ea]. now rewrite IH.
Qed.

Lemma scheme_char_facts (x : N) :
  char_in x scheme_chars = true ->
  N.eqb x 58 = false /\ unsafe_url_byte x = false /\ c0_control_or_space x = false.
Proof.
  unfold char_in. rewrite existsb_exists. intros (y & Hin & E).
  apply N.eqb_eq in E; subst y.
  repeat (destruct Hin as [<-|Hin]; [repeat split; reflexivity|]).
  destruct Hin.
Qed.

Lemma wf_scheme_facts (s : str) :
  wf_scheme s = true ->
  absent 58 s = true /\ clean s = true /\ lower s = s
  /\ forallb (fun x => char_in x scheme_chars) s = true.
Proof.
  destruct s as [|c s]; [repeat split|].
  unfold wf_scheme. rewrite !andb_true_iff, str_eqb_eq.
  intros [[_ Hchars] Hlower]. repeat split; try assumption.
  - unfold absent. rewrite forallb_forall in *. intros x Hx.
    destruct (scheme_char_facts x (Hchars x Hx)) as (-> & _). reflexivity.
  - unfold clean. rewrite forallb_forall in *. intros x Hx.
    destruct (scheme_char_facts x (Hchars x Hx)) as (_ & -> & _). reflexivity.
Qed.

(** A scheme written before its colon is read back. *)
Lemma split_scheme_written (s rest : str) :
  wf_scheme s = true -> s <> [] -> split_scheme (s ++ 58%N :: rest) = (s, rest).
Proof.
  intros Hwf Hne. destruct (wf_scheme_facts s Hwf) as (Hcolon & _ & Hlower & Hchars).
  unfold split_scheme. rewrite split_first_app by assumption.
  destruct s as [|c s]; [congruence|].
  unfold wf_scheme in Hwf. rewrite !andb_true_iff in Hwf.
  destruct Hwf as [[-> _] _]. rewrite Hchars, Hlower. reflexivity.
Qed.

(** No scheme leads a text that starts with a slash. *)
Lemma split_scheme_slash (t : str) : split_scheme (47%N :: t) = ([], 47%N :: t).
Proof.
  unfold split_scheme, split_first.
  destruct (find_from 58 (47%N :: t) 0) as [[|i]|]; reflexivity.
Qed.

(** What [urlunsplit] writes for a network location that is not empty
    and a path that starts with a slash. *)
Lemma urlunsplit_written (s n t qu f : str) :
  n <> [] ->
  urlunsplit (s, n, 47%N :: t, qu, f)
  = (if str_truthy s then s ++ [58%N] else [])
    ++ lit "//" ++ n ++ (47%N :: t ++ optional 63 qu) ++ optional 35 f.
Proof.
  intros Hn. unfold urlunsplit, optional.
  destruct n as [|c n]; [congruence|]. simpl str_truthy. cbv iota.
  simpl orb. cbv iota.
  change (str_truthy (47%N :: t) && negb (str_eqb (firstn 1 (47%N :: t)) (lit "/")))
    with false. cbv iota.
  destruct s as [|cs s], qu as [|cq qu], f as [|cf f]; simpl;
    rewrite <- ?app_assoc; simpl; rewrite ?app_nil_r;
    repeat (rewrite <- ?app_assoc; simpl); reflexivity.
Qed.

Lemma optional_clean (sep : N) (s : str) :
  unsafe_url_byte sep = false -> clean s = true -> clean (optional sep s) = true.
Proof.
  intros Hsep Hs. unfold optional. destruct (str_truthy s); [|reflexivity].
  simpl. now rewrite Hsep.
Qed.

Lemma clean_app (a b : str) : clean (a ++ b) = clean a && clean b.
Proof. apply forallb_app. Qed.

Lemma sanitize_id (c : N) (s : str) :
  c0_control_or_space c = false -> clean (c :: s) = true ->
  sanitize (c :: s) = c :: s.
Proof.
  intros Hc Hs. unfold sanitize. simpl dropwhile. rewrite Hc.
  now apply filter_all.
Qed.

Lemma split_netloc_written (v : validators) (n t : str) :
  absent 47 n = true -> absent 63 n = true -> absent 35 n = true ->
  check_brackets v n = Ok tt ->
  split_netloc v (lit "//" ++ n ++ 47%N :: t) = Ok (n, 47%N :: t).
Proof.
  intros H1 H2 H3 Hb. unfold split_netloc, _splitnetloc.
  change (str_eqb (firstn 2 (lit "//" ++ n ++ 47%N :: t)) (lit "//")) with true.
  cbv iota. change (skipn 2 (lit "//" ++ n ++ 47%N :: t)) with (n ++ 47%N :: t).
  assert (Hdom : forallb (fun c => negb (char_in c (lit "/?#"))) n = true).
  { unfold absent in *. rewrite forallb_forall in *. intros x Hx.
    specialize (H1 x Hx); specialize (H2 x Hx); specialize (H3 x Hx).
    apply negb_true_iff in H1, H2, H3. unfold char_in; simpl.
    rewrite (N.eqb_sym x 47), (N.eqb_sym x 63), (N.eqb_sym x 35) in *.
    now rewrite H1, H2, H3. }
  rewrite takewhile_app, dropwhile_app by (assumption || reflexivity).
  rewrite Hb. reflexivity.
Qed.

(** [urlsplit] reads back what [urlunsplit] wrote. *)
Lemma urlsplit_urlunsplit (v : validators) (s n t qu f : str) :
  wf_scheme s = true ->
  n <> [] ->
  absent 47 n = true -> absent 63 n = true -> absent 35 n = true ->
  check_brackets v n = Ok tt ->
  _checknetloc v n = Ok tt ->
  absent 63 t = true -> absent 35 t = true -> absent 35 qu = true ->
  clean n = true -> clean t = true -> clean qu = true -> clean f = true ->
  urlsplit v (urlunsplit (s, n, 47%N :: t, qu, f)) = Ok (s, n, 47%N :: t, qu, f).
Proof.
  intros Hs Hn Hn1 Hn2 Hn3 Hb Hc Ht1 Ht2 Hq Cn Ct Cq Cf.
  rewrite urlunsplit_written by assumption.
  destruct (wf_scheme_facts s Hs) as (_ & Cs & _ & Hchars).
  set (rest := (47%N :: t ++ optional 63 qu) ++ optional 35 f).
  assert (Crest : clean rest = true).
  { unfold rest. rewrite clean_app, app_comm_cons, clean_app.
    rewrite !optional_clean by (assumption || reflexivity).
    simpl. now rewrite Ct. }
  assert (Hscheme :
    split_scheme (sanitize ((if str_truthy s then s ++ [58%N] else [])
                            ++ lit "//" ++ n ++ rest))
    = (s, lit "//" ++ n ++ rest)).
  { destruct s as [|cs s].
    - simpl app. rewrite sanitize_id.
      + apply split_scheme_slash.
      + reflexivity.
      + simpl. rewrite clean_app. now rewrite Cn.
    - simpl str_truthy. cbv iota.
      rewrite <- app_assoc, <- app_comm_cons, sanitize_id.
      + rewrite app_comm_cons.
        apply split_scheme_written; [assumption | discriminate].
      + simpl in Hchars. apply andb_true_iff in Hchars as [Hcs _].
        now destruct (scheme_char_facts cs Hcs) as (_ & _ & ->).
      + rewrite app_comm_cons, clean_app, Cs. simpl.
        rewrite clean_app. now rewrite Cn. }
  unfold urlsplit. rewrite Hscheme.
  unfold rest. rewrite <- app_comm_cons.
  rewrite split_netloc_written by assumption. simpl and_then.
  rewrite app_comm_cons, split_off_optional.
  - rewrite app_comm_cons, split_off_optional by (simpl; assumption).
    rewrite Hc. reflexivity.
  - rewrite app_comm_cons, absent_app. simpl. rewrite Ht2. unfold optional.
    destruct (str_truthy qu); [simpl; assumption | reflexivity].
Qed.

Lemma rfind_absent (c : N) (s : str) : absent c s = true -> rfind c s = None.
Proof.
  induction s as [|x s IH]; simpl; [reflexivity|].
  intros E; apply andb_true_iff in E as [Ex E].
  apply negb_true_iff in Ex. now rewrite IH, Ex.
Qed.

Lemma rfind_app_last (c : N) (y z : str) :
  absent c z = true -> rfind c (y ++ c :: z) = Some (length y).
Proof.
  intros E. induction y as [|x y IH]; simpl.
  - now rewrite rfind_absent, N.eqb_refl.
  - now rewrite IH.
Qed.

Lemma find_from_app (c : N) (y w : str) :
  find_from c (y ++ w) (length y)
  = option_map (Nat.add (length y)) (find_from c w 0).
Proof.
  induction y as [|x y IH]; simpl.
  - destruct w as [|a w]; [reflexivity|]. now destruct (find_from c (a :: w) 0).
  - rewrite IH. now destruct (find_from c w 0).
Qed.

Lemma urlunparse_unsplit (s n q pa qu f : str) :
  urlunparse (s, n, q, pa, qu, f) = urlunsplit (s, n, q ++ optional 59 pa, qu, f).
Proof.
  unfold urlunparse, optional. destruct (str_truthy pa); [reflexivity|].
  now rewrite app_nil_r.
Qed.

(** The parameters written after a path whose last segment holds no
    semicolon are split off again. *)
Lemma _splitparams_written (y seg pa : str) :
  absent 47 seg = true -> absent 59 seg = true -> absent 47 pa = true ->
  (if char_in 59 ((y ++ 47%N :: seg) ++ optional 59 pa)
   then _splitparams ((y ++ 47%N :: seg) ++ optional 59 pa)
   else ((y ++ 47%N :: seg) ++ optional 59 pa, []))
  = (y ++ 47%N :: seg, pa).
Proof.
  intros Hseg1 Hseg2 Hpa.
  assert (Hno : pa = [] -> optional 59 pa = []) by (intros ->; reflexivity).
  assert (Hlast : rfind 47 ((y ++ 47%N :: seg) ++ optional 59 pa) = Some (length y)).
  { rewrite <- app_assoc, <- app_comm_cons. apply rfind_app_last.
    rewrite absent_app, Hseg1. unfold optional.
    destruct (str_truthy pa); [simpl; assumption | reflexivity]. }
  assert (Hsplit : _splitparams ((y ++ 47%N :: seg) ++ optional 59 pa)
                   = (y ++ 47%N :: seg, pa)).
  { unfold _splitparams. rewrite Hlast.
    rewrite <- (app_assoc y), <- app_comm_cons, find_from_app.
    destruct pa as [|x pa].
    - simpl optional. rewrite !app_nil_r.
      rewrite find_from_0_absent by (simpl; assumption). reflexivity.
    - change (optional 59 (x :: pa)) with (59%N :: x :: pa).
      rewrite app_comm_cons, find_from_0_app by (simpl; assumption).
      simpl option_map. cbv iota beta. rewrite app_assoc.
      replace (length y + S (length seg))%nat
        with (length (y ++ 47%N :: seg)) by (rewrite length_app; reflexivity).
      now rewrite firstn_before, skipn_after. }
  destruct (char_in 59 ((y ++ 47%N :: seg) ++ optional 59 pa)) eqn:Hsemi;
    [exact Hsplit|].
  destruct pa as [|x pa]; [now rewrite Hno, app_nil_r|].
  exfalso. unfold char_in in Hsemi.
  assert (Hex : existsb (N.eqb 59) ((y ++ 47%N :: seg) ++ optional 59 (x :: pa)) = true).
  { apply existsb_exists. exists 59%N. split; [|apply N.eqb_refl].
    apply in_or_app; right; left; reflexivity. }
  congruence.
Qed.

(** [urlparse] reads back what [urlunparse] wrote, for a network location
    that is not empty and a path that starts with a slash and holds no
    semicolon in its last segment. *)
Lemma urlparse_urlunparse (v : validators) (s n y seg pa qu f : str) :
  wf_scheme s = true ->
  n <> [] ->
  absent 47 n = true -> absent 63 n = true -> absent 35 n = true ->
  check_brackets v n = Ok tt ->
  _checknetloc v n = Ok tt ->
  (exists t, y ++ 47%N :: seg = 47%N :: t) ->
  absent 47 seg = true -> absent 59 seg = true ->
  absent 63 (y ++ 47%N :: seg) = true -> absent 35 (y ++ 47%N :: seg) = true ->
  absent 47 pa = true -> absent 63 pa = true -> absent 35 pa = true ->
  (str_in_list s uses_params = false -> pa = []) ->
  absent 35 qu = true ->
  clean n = true -> clean (y ++ 47%N :: seg) = true -> clean pa = true ->
  clean qu = true -> clean f = true ->
  urlparse v (urlunparse (s, n, y ++ 47%N :: seg, pa, qu, f))
  = Ok (mk_ParseResult s n (y ++ 47%N :: seg) pa qu f).
Proof.
  intros Hs Hn Hn1 Hn2 Hn3 Hb Hc [t Ht] Hseg1 Hseg2 Hq1 Hq2 Hp1 Hp2 Hp3 Hpar
    Hqu Cn Cq Cp Cqu Cf.
  rewrite urlunparse_unsplit. unfold urlparse.
  assert (Hsplit :
    urlsplit v (urlunsplit (s, n, (y ++ 47%N :: seg) ++ optional 59 pa, qu, f))
    = Ok (s, n, (y ++ 47%N :: seg) ++ optional 59 pa, qu, f)).
  { rewrite Ht in *. rewrite <- app_comm_cons.
    assert (Ho : forall c, negb (N.eqb 59 c) = true -> absent c pa = true ->
                 absent c (optional 59 pa) = true).
    { intros c Hc' Ha. unfold optional. destruct (str_truthy pa); [|reflexivity].
      now rewrite absent_cons, Hc', Ha. }
    simpl in Hq1, Hq2, Cq.
    apply urlsplit_urlunsplit; try assumption.
    - rewrite absent_app, Ho by (assumption || reflexivity). now rewrite Hq1.
    - rewrite absent_app, Ho by (assumption || reflexivity). now rewrite Hq2.
    - rewrite clean_app, optional_clean by (assumption || reflexivity).
      now rewrite andb_true_r. }
  rewrite Hsplit.
  destruct (str_in_list s uses_params) eqn:Hup.
  - simpl andb. rewrite _splitparams_written by assumption. reflexivity.
  - simpl andb. rewrite (Hpar eq_refl). simpl optional. now rewrite app_nil_r.
Qed.

(** *** What a successful parse tells about the components *)

Lemma forallb_incl (p : N -> bool) (a b : str) :
  incl a b -> forallb p b = true -> forallb p a = true.
Proof. rewrite !forallb_forall. intros Hi Hb x Hx. apply Hb, Hi, Hx. Qed.

Lemma incl_firstn (k : nat) (s : str) : incl (firstn k s) s.
Proof.
  intros x Hx. rewrite <- (firstn_skipn k s). apply in_or_app; now left.
Qed.

Lemma incl_skipn (k : nat) (s : str) : incl (skipn k s) s.
Proof.
  intros x Hx. rewrite <- (firstn_skipn k s). apply in_or_app; now right.
Qed.

Lemma incl_takewhile (p : N -> bool) (s : str) : incl (takewhile p s) s.
Proof.
  intros x Hx. rewrite (dropwhile_split p s). apply in_or_app; now left.
Qed.

Lemma incl_dropwhile (p : N -> bool) (s : str) : incl (dropwhile p s) s.
Proof.
  intros x Hx. rewrite (dropwhile_split p s). apply in_or_app; now right.
Qed.

Lemma incl_filter (p : N -> bool) (s : str) : incl (filter p s) s.
Proof. intros x Hx. apply filter_In in Hx. tauto. Qed.

Lemma sanitize_clean (url : str) : clean (sanitize url) = true.
Proof.
  unfold clean, sanitize. apply forallb_forall. intros x Hx.
  apply filter_In in Hx. tauto.
Qed.

Lemma find_from_0_some (c : N) (s : str) (i : nat) :
  find_from c s 0 = Some i -> absent c (firstn i s) = true.
Proof.
  revert i; induction s as [|x s IH]; intros i; simpl; [discriminate|].
  destruct (N.eqb x c) eqn:Ex.
  - intros E; injection E as <-. reflexivity.
  - destruct (find_from c s 0) as [j|]; [|discriminate].
    intros E; injection E as <-. simpl. now rewrite Ex, IH.
Qed.

Lemma find_from_0_none (c : N) (s : str) :
  find_from c s 0 = None -> absent c s = true.
Proof.
  induction s as [|x s IH]; simpl; [reflexivity|].
  destruct (N.eqb x c); [discriminate|].
  destruct (find_from c s 0); [discriminate|]. intros _. now rewrite IH.
Qed.

Lemma find_from_ge (c : N) (s : str) (j i : nat) :
  find_from c s j = Some i -> (j <= i)%nat.
Proof.
  revert j i; induction s as [|x s IH]; intros j i; simpl; [discriminate|].
  destruct j as [|j]; [lia|].
  destruct (find_from c s j) as [k|] eqn:E; [|discriminate].
  intros E'; injection E' as <-. apply IH in E. lia.
Qed.

Lemma rfind_some (c : N) (s : str) (j : nat) :
  rfind c s = Some j -> absent c (skipn (S j) s) = true.
Proof.
  revert j; induction s as [|x s IH]; intros j; simpl; [discriminate|].
  destruct (rfind c s) as [k|] eqn:E.
  - intros E'; injection E' as <-. now apply IH.
  - destruct (N.eqb x c); [|discriminate].
    intros E'; injection E' as <-. simpl.
    clear IH. induction s as [|y s IHs]; [reflexivity|].
    simpl in E. destruct (rfind c s) as [k|]; [discriminate|].
    destruct (N.eqb y c) eqn:Ey; [discriminate|].
    simpl. now rewrite Ey, IHs.
Qed.

Lemma rfind_none (c : N) (s : str) : rfind c s = None -> absent c s = true.
Proof.
  induction s as [|x s IH]; simpl; [reflexivity|].
  destruct (rfind c s); [discriminate|].
  destruct (N.eqb x c); [discriminate|]. intros _. now rewrite IH.
Qed.

Lemma incl_skipn_le (k k' : nat) (s : str) :
  (k <= k')%nat -> incl (skipn k' s) (skipn k s).
Proof.
  intros Hle. replace k' with ((k' - k) + k)%nat by lia.
  rewrite <- skipn_skipn. apply incl_skipn.
Qed.

(** The part before the separator holds no separator, and both parts are
    made of characters of the text. *)
Lemma split_off_facts (c : N) (x a b : str) :
  split_off c x = (a, b) ->
  absent c a = true /\ incl a x /\ incl b x /\ exists rest, x = a ++ rest.
Proof.
  unfold split_off, split_first.
  destruct (find_from c x 0) as [i|] eqn:E; intros E'; injection E' as <- <-.
  - refine (conj _ (conj _ (conj _ _))).
    + now apply find_from_0_some.
    + apply incl_firstn.
    + exact (incl_skipn (S i) x).
    + exists (skipn i x). symmetry; apply firstn_skipn.
  - refine (conj _ (conj _ (conj _ _))).
    + now apply find_from_0_none.
    + apply incl_refl.
    + intros y [].
    + exists []. now rewrite app_nil_r.
Qed.

Lemma _splitparams_facts (url a b : str) :
  _splitparams url = (a, b) ->
  incl a url /\ incl b url /\ absent 47 b = true /\ exists rest, url = a ++ rest.
Proof.
  unfold _splitparams.
  destruct (rfind 47 url) as [j|] eqn:Hslash.
  - destruct (find_from 59 url j) as [i|] eqn:Hsemi;
      intros E; injection E as <- <-.
    + refine (conj _ (conj _ (conj _ _))).
      * apply incl_firstn.
      * exact (incl_skipn (S i) url).
      * apply (forallb_incl _ (b := skipn (S j) url)).
        -- apply find_from_ge in Hsemi.
           exact (@incl_skipn_le (S j) (S i) url ltac:(lia)).
        -- now apply rfind_some.
      * exists (skipn i url). symmetry; apply firstn_skipn.
    + refine (conj _ (conj _ (conj _ _)));
        [apply incl_refl | intros y [] | reflexivity |].
      exists []. now rewrite app_nil_r.
  - apply rfind_none in Hslash.
    destruct (find_from 59 url 0) as [i|] eqn:Hsemi;
      intros E; injection E as <- <-.
    + refine (conj _ (conj _ (conj _ _))).
      * apply incl_firstn.
      * exact (incl_skipn (S i) url).
      * apply (forallb_incl _ (b := url));
          [exact (incl_skipn (S i) url) | assumption].
      * exists (skipn i url). symmetry; apply firstn_skipn.
    + refine (conj _ (conj _ (conj _ _))).
      * intros y Hy. destruct url as [|u0 url]; [destruct Hy|].
        rewrite (app_removelast_last (l := u0 :: url) 0%N) by discriminate.
        apply in_or_app; now left.
      * apply incl_refl.
      * assumption.
      * destruct url as [|u0 url]; [exists []; reflexivity|].
        exists [last (u0 :: url) 0%N].
        apply app_removelast_last. discriminate.
Qed.

Lemma lower_char_facts (x : N) :
  char_in x scheme_chars = true ->
  char_in (lower_char x) scheme_chars = true
  /\ (ascii_alpha x = true -> ascii_alpha (lower_char x) = true)
  /\ lower_char (lower_char x) = lower_char x.
Proof.
  unfold char_in at 1. rewrite existsb_exists. intros (y & Hin & E).
  apply N.eqb_eq in E; subst y.
  repeat (destruct Hin as [<-|Hin];
          [repeat split; first [reflexivity | intros Hx; exact Hx]|]).
  destruct Hin.
Qed.

Lemma lower_wf (c : N) (pre : str) :
  ascii_alpha c = true ->
  forallb (fun x => char_in x scheme_chars) (c :: pre) = true ->
  wf_scheme (lower (c :: pre)) = true.
Proof.
  intros Halpha Hchars.
  assert (Hall : forall s, forallb (fun x => char_in x scheme_chars) s = true ->
            forallb (fun x => char_in x scheme_chars) (lower s) = true
            /\ lower (lower s) = lower s).
  { induction s as [|x s IH]; [auto|].
    intros E. change (char_in x scheme_chars
                      && forallb (fun x => char_in x scheme_chars) s = true) in E.
    apply andb_true_iff in E as [Ex E].
    destruct (IH E) as [IH1 IH2].
    destruct (lower_char_facts x Ex) as (H1 & _ & H3).
    unfold lower in *. rewrite !map_cons.
    split; [|now rewrite H3, IH2].
    change (char_in (lower_char x) scheme_chars
            && forallb (fun x => char_in x scheme_chars) (map lower_char s) = true).
    now rewrite H1, IH1. }
  destruct (Hall _ Hchars) as [H1 H2].
  pose proof Hchars as Hc.
  change (char_in c scheme_chars
          && forallb (fun x => char_in x scheme_chars) pre = true) in Hc.
  apply andb_true_iff in Hc as [Hc _].
  destruct (lower_char_facts c Hc) as (_ & Ha & _).
  unfold wf_scheme. rewrite H1, H2, str_eqb_refl.
  unfold lower. rewrite map_cons. now rewrite (Ha Halpha).
Qed.

Lemma split_scheme_facts (x s rest : str) :
  split_scheme x = (s, rest) -> wf_scheme s = true /\ incl rest x.
Proof.
  assert (Hsame : forall y : str, ([], x) = (s, y) ->
            wf_scheme s = true /\ incl y x).
  { intros y E; injection E as <- <-. split; [reflexivity | apply incl_refl]. }
  unfold split_scheme.
  destruct (split_first 58 x) as [[[|c pre] rest']|] eqn:E; try apply Hsame.
  destruct (ascii_alpha c && forallb (fun x0 => char_in x0 scheme_chars) (c :: pre))
    eqn:Hc; [|apply Hsame].
  apply andb_true_iff in Hc as [Ha Hc].
  intros E'; injection E' as <- <-. split; [now apply lower_wf|].
  unfold split_first in E. destruct (find_from 58 x 0) as [i|]; [|discriminate].
  injection E as _ <-. exact (incl_skipn (S i) x).
Qed.

Lemma split_netloc_facts (v : validators) (x n rest : str) :
  split_netloc v x = Ok (n, rest) ->
  incl n x /\ incl rest x
  /\ (n <> [] ->
      (absent 47 n = true /\ absent 63 n = true /\ absent 35 n = true)
      /\ check_brackets v n = Ok tt
      /\ (rest = [] \/ exists c t, rest = c :: t /\ (c = 47 \/ c = 63 \/ c = 35)%N)).
Proof.
  unfold split_netloc, _splitnetloc.
  destruct (str_eqb (firstn 2 x) (lit "//"));
    [|intros E; injection E as <- <-;
      refine (conj _ (conj _ _));
      [intros y [] | apply incl_refl | congruence]].
  set (in_domain := fun c => negb (char_in c (lit "/?#"))).
  assert (Hx2 : incl (skipn 2 x) x) by exact (incl_skipn 2 x).
  revert Hx2. generalize (skipn 2 x) as x2. intros x2 Hx2.
  destruct (check_brackets v (takewhile in_domain x2)) as [[]|e] eqn:Hb;
    unfold and_then; [|discriminate].
  intros E; injection E as <- <-.
  refine (conj _ (conj _ _)).
  - intros y Hy. apply incl_takewhile in Hy. exact (Hx2 y Hy).
  - intros y Hy. apply incl_dropwhile in Hy. exact (Hx2 y Hy).
  - intros _. refine (conj _ (conj Hb _)).
    + pose proof (takewhile_all in_domain x2) as Hall.
      unfold absent. rewrite !forallb_forall in *.
      repeat split; intros y Hy; specialize (Hall y Hy);
        unfold in_domain, char_in in Hall; simpl in Hall;
        apply negb_true_iff in Hall; rewrite !orb_false_iff in Hall;
        apply negb_true_iff; tauto.
    + pose proof (dropwhile_head in_domain x2) as Hhead.
      destruct (dropwhile in_domain x2) as [|c t]; [now left|].
      right. exists c, t. split; [reflexivity|].
      unfold in_domain, char_in in Hhead; simpl in Hhead.
      apply negb_false_iff in Hhead. rewrite !orb_true_iff, !N.eqb_eq in Hhead.
      destruct Hhead as [?|[?|[?|?]]]; auto; discriminate.
Qed.

Lemma urlparse_well_parsed (v : validators) (u : str) (p : ParseResult) :
  urlparse v u = Ok p -> netloc p <> [] -> well_parsed v p.
Proof.
  unfold urlparse, urlsplit.
  pose proof (sanitize_clean u) as C0.
  destruct (split_scheme (sanitize u)) as [s x1] eqn:E1.
  apply split_scheme_facts in E1 as [Hs I1].
  destruct (split_netloc v x1) as [[n x2]|e] eqn:E2; [|discriminate].
  apply split_netloc_facts in E2 as (Inet & I2 & Hnet).
  unfold and_then at 1.
  destruct (split_off 35 x2) as [x3 fr] eqn:E3.
  apply split_off_facts in E3 as (A3 & I3 & If & [r3 P3]).
  destruct (split_off 63 x3) as [x4 qu] eqn:E4.
  apply split_off_facts in E4 as (A4 & I4 & Iq & [r4 P4]).
  destruct (_checknetloc v n) as [[]|e] eqn:E5; [|discriminate].
  unfold and_then.
  assert (Hparts : forall pth pa : str,
            incl pth x4 -> incl pa x4 -> absent 47 pa = true ->
            (exists r, x4 = pth ++ r) ->
            (str_in_list s uses_params = false -> pa = []) ->
            n <> [] ->
            well_parsed v (mk_ParseResult s n pth pa qu fr)).
  { intros pth pa Ipth Ipa Apa [r5 P5] Huses Hn.
    destruct (Hnet Hn) as (Hdelims & Hb & Hhead).
    pose proof (incl_tran I2 I1) as Ix2.
    pose proof (incl_tran I3 Ix2) as Ix3.
    pose proof (incl_tran I4 Ix3) as Ix4.
    pose proof (forallb_incl _ I4 A3) as A4'. fold (absent 35 x4) in A4'.
    constructor; simpl; try assumption.
    - destruct pth as [|c t]; [now left|]. right.
      subst x4 x3 x2. destruct Hhead as [E|(c' & t' & E & Hc')]; [discriminate|].
      simpl in E. injection E as <- _. exists t. f_equal.
      simpl in A4, A4'. apply andb_true_iff in A4 as [A4 _].
      apply andb_true_iff in A4' as [A4' _].
      apply negb_true_iff, N.eqb_neq in A4, A4'.
      destruct Hc' as [?|[?|?]]; congruence.
    - split; [exact (forallb_incl _ Ipth A4) | exact (forallb_incl _ Ipth A4')].
    - split; [assumption|].
      split; [exact (forallb_incl _ Ipa A4) | exact (forallb_incl _ Ipa A4')].
    - exact (forallb_incl _ Iq A3).
    - assert (Hc : forall z, incl z (sanitize u) -> clean z = true)
        by (intros z Hz; exact (forallb_incl _ Hz C0)).
      repeat split; apply Hc.
      + exact (incl_tran Inet I1).
      + exact (incl_tran Ipth Ix4).
      + exact (incl_tran Ipa Ix4).
      + exact (incl_tran Iq Ix3).
      + exact (incl_tran If Ix2). }
  destruct (str_in_list s uses_params && char_in 59 x4) eqn:E6.
  - destruct (_splitparams x4) as [pth pa] eqn:E7.
    apply _splitparams_facts in E7 as (Ipth & Ipa & Apa & Ppth).
    intros E; injection E as <-. simpl. intros Hn.
    apply Hparts; try assumption.
    apply andb_true_iff in E6 as [E6 _]. congruence.
  - intros E; injection E as <-. simpl. intros Hn.
    apply Hparts; try assumption; try reflexivity.
    + apply incl_refl.
    + intros y [].
    + exists []. now rewrite app_nil_r.
Qed.

End ParsingBack.

(** With CPython 3.11's parser and a base URL that has a network
    location: when normalisation appends the suffix, the URL it returns
    parses into the scheme, network location, parameters, query and
    fragment of the configured URL and into the new path, so normalising
    that URL again changes nothing. *)
Theorem normalised_url_parses_back (v : CPython.validators)
    (self : AITranslator.t) (p : ParseResult) :
  CPython.urlparse v (AITranslator.api_url self) = Ok p ->
  netloc p <> [] ->
  endswith (path p) (lit "/chat/completions") = false ->
  exists url new_path,
    AITranslator._get_api_url (lib := CPython.urllib v) self = Ok url
    /\ endswith new_path (lit "/chat/completions") = true
    /\ CPython.urlparse v url
       = Ok (mk_ParseResult (scheme p) (netloc p) new_path
               (params p) (query p) (fragment p))
    /\ normalize_again (lib := CPython.urllib v) self = Ok url.
Proof.
  intros Hparse Hn Hsuffix.
  destruct (urlparse_well_parsed _ _ Hparse Hn)
    as [Hs (Hn1 & Hn2 & Hn3) Hb Hc Hhead (Hp1 & Hp2) (Ha1 & Ha2 & Ha3) Huses Hq
          (Cn & Cp & Ca & Cq & Cf)].
  set (new_path := if endswith (path p) (lit "/")
                   then path p ++ lit "chat/completions"
                   else path p ++ lit "/chat/completions").
  assert (Hform : exists y tail,
            new_path = path p ++ tail
            /\ new_path = y ++ 47%N :: lit "completions"
            /\ absent 63 tail = true /\ absent 35 tail = true
            /\ clean tail = true
            /\ (path p = [] -> exists t, new_path = 47%N :: t)).
  { unfold new_path. destruct (endswith (path p) (lit "/")) eqn:E.
    - exists (path p ++ lit "chat"), (lit "chat/completions").
      repeat split; try reflexivity.
      + now rewrite <- app_assoc.
      + intros Ep. rewrite Ep in E. discriminate.
    - exists (path p ++ lit "/chat"), (lit "/chat/completions").
      repeat split; try reflexivity.
      + now rewrite <- app_assoc.
      + intros ->. eexists. reflexivity. }
  destruct Hform as (y & tail & Htail & Hy & T1 & T2 & T3 & Hempty).
  assert (Hends : endswith new_path (lit "/chat/completions") = true)
    by apply (joined_path_cases (path p)).
  assert (Hurl : AITranslator._get_api_url (lib := CPython.urllib v) self
                 = Ok (CPython.urlunparse (scheme p, netloc p, new_path,
                                           params p, query p, fragment p))).
  { unfold AITranslator._get_api_url.
    change (urlparse (AITranslator.api_url self))
      with (CPython.urlparse v (AITranslator.api_url self)).
    rewrite Hparse, Hsuffix. reflexivity. }
  assert (Hback : CPython.urlparse v
                    (CPython.urlunparse (scheme p, netloc p, new_path,
                                         params p, query p, fragment p))
                  = Ok (mk_ParseResult (scheme p) (netloc p) new_path
                          (params p) (query p) (fragment p))).
  { assert (A63 : absent 63 new_path = true)
      by (rewrite Htail, absent_app, Hp1, T1; reflexivity).
    assert (A35 : absent 35 new_path = true)
      by (rewrite Htail, absent_app, Hp2, T2; reflexivity).
    assert (Cnew : clean new_path = true)
      by (rewrite Htail, clean_app, Cp, T3; reflexivity).
    assert (Hslash : exists t, new_path = 47%N :: t).
    { destruct Hhead as [Ep|[t Ep]]; [auto|].
      rewrite Htail, Ep. eexists. reflexivity. }
    rewrite Hy in *.
    apply urlparse_urlunparse; try assumption; reflexivity. }
  exists (CPython.urlunparse (scheme p, netloc p, new_path,
                              params p, query p, fragment p)), new_path.
  split; [exact Hurl|]. split; [exact Hends|]. split; [exact Hback|].
  rewrite <- Hurl.
  apply (normalize_again_complete (lib := CPython.urllib v) self Hurl
           (parsed := mk_ParseResult (scheme p) (netloc p) new_path
                        (params p) (query p) (fragment p))).
  - exact Hback.
  - exact Hends.
Qed.

(** A base URL of the usual kind, parsed back after normalisation. *)
Example gateway_url_parses_back :
  CPython.urlparse CPython.accept_all
    (lit "https://gw.example.com/openai/chat/completions;v=1?key=a#frag")
  = Ok (mk_ParseResult (lit "https") (lit "gw.example.com")
          (lit "/openai/chat/completions") (lit "v=1") (lit "key=a")
          (lit "frag")).
Proof. reflexivity. Qed.

(** * Further properties of the adapter *)

(** ** The effects of a call, in order *)

Section Effects.
Context {lib : Urllib} {net : Transport}.

Import AITranslator.

Lemma handle_exception_eq (self : t) (e : exn) :
  handle_exception self e = (log_lines (debug self) (exception_line e), Ok []).
Proof.
  unfold handle_exception, exception_line.
  destruct (is_TimeoutError e); [|destruct (is_ClientError e)];
    rewrite print_if_run; simpl; now rewrite app_nil_r.
Qed.

(** What handling a response does: at most one read of the body, then at
    most one printed line, and no line when it ends with an exception. *)
Lemma handle_response_shape (self : t) (r : response) :
  exists reads lines,
    trace (handle_response self r) = reads ++ map EvPrint lines
    /\ (reads = [] \/ reads = [EvReadText] \/ reads = [EvReadJson])
    /\ (length lines <= 1)%nat
    /\ (debug self = false -> lines = [])
    /\ (forall e, outcome (handle_response self r) = Raise e -> lines = []).
Proof.
  assert (Hlog : forall reads line (s : str),
            (reads = [] \/ reads = [EvReadText] \/ reads = [EvReadJson]) ->
            exists reads' lines,
              trace (reads ++ log_lines (debug self) line, Ok s)
              = reads' ++ map EvPrint lines
              /\ (reads' = [] \/ reads' = [EvReadText] \/ reads' = [EvReadJson])
              /\ (length lines <= 1)%nat
              /\ (debug self = false -> lines = [])
              /\ (forall e, outcome (reads ++ log_lines (debug self) line, Ok s)
                            = Raise e -> lines = [])).
  { intros reads line s Hreads.
    exists reads, (if debug self then [line] else []).
    split; [reflexivity|]. split; [assumption|].
    split; [destruct (debug self); simpl; lia|].
    split; [intros ->; reflexivity | discriminate]. }
  assert (Hquiet : forall reads (o : result str),
            (reads = [] \/ reads = [EvReadText] \/ reads = [EvReadJson]) ->
            exists reads' lines,
              trace (reads, o) = reads' ++ map EvPrint lines
              /\ (reads' = [] \/ reads' = [EvReadText] \/ reads' = [EvReadJson])
              /\ (length lines <= 1)%nat
              /\ (debug self = false -> lines = [])
              /\ (forall e, outcome (reads, o) = Raise e -> lines = [])).
  { intros reads o Hreads. exists reads, [].
    split; [simpl; now rewrite app_nil_r|]. auto. }
  remember (handle_response self r) as run eqn:Erun.
  destruct (Z.eq_dec (status r) 401) as [E1|N1];
    [rewrite handle_response_401 in Erun by assumption; subst run;
     apply (Hlog []); auto |].
  destruct (Z.eq_dec (status r) 429) as [E2|N2];
    [rewrite handle_response_429 in Erun by assumption; subst run;
     apply (Hlog []); auto |].
  destruct (Z_le_gt_dec 500 (status r)) as [E5|N5];
    [rewrite handle_response_5xx in Erun by assumption; subst run;
     apply (Hlog []); auto |].
  destruct (Z_lt_ge_dec (status r) 400) as [Eok|E4].
  - rewrite handle_response_ok in Erun by assumption.
    destruct (response_json r) as [data|e]; [|subst run; apply Hquiet; auto].
    destruct (extract_content data) as [v|e]; [|subst run; apply Hquiet; auto].
    destruct (truthy v); subst run; [apply Hquiet; auto|].
    apply (Hlog [EvReadJson]); auto.
  - rewrite handle_response_4xx in Erun by (try assumption; lia).
    destruct (response_text r) as [body|e]; subst run; [|apply Hquiet; auto].
    apply (Hlog [EvReadText]); auto.
Qed.

(** The trace of a call with a text: the request, at most one read of the
    body, at most one printed line. *)
Lemma translate_trace (self : t) (text source_lang target_lang url : str) :
  str_truthy text = true ->
  _get_api_url self = Ok url ->
  exists reads lines,
    trace (translate self text source_lang target_lang)
    = EvPost (posted_request self text source_lang target_lang url)
        :: reads ++ map EvPrint lines
    /\ (reads = [] \/ reads = [EvReadText] \/ reads = [EvReadJson])
    /\ (length lines <= 1)%nat
    /\ (debug self = false -> lines = []).
Proof.
  intros Htext Hurl.
  set (req := posted_request self text source_lang target_lang url).
  destruct (session_post req) as [r|e] eqn:Hpost.
  - rewrite translate_responds with (url := url) (r := r) by assumption.
    fold req.
    destruct (handle_response_shape self r)
      as (reads & lines & Ht & Hreads & Hlen & Hsilent & Hraise).
    rewrite Ht.
    destruct (outcome (handle_response self r)) as [s|e].
    + exists reads, lines. simpl. auto.
    + rewrite (Hraise e eq_refl). simpl try_except.
      rewrite handle_exception_eq. unfold log_lines.
      exists reads, (if debug self then [exception_line e] else []).
      split; [simpl; now rewrite app_nil_r|].
      split; [assumption|].
      split; [destruct (debug self); simpl; lia | intros ->; reflexivity].
  - rewrite translate_fails with (url := url) (e := e) by assumption.
    fold req. rewrite handle_exception_eq. unfold log_lines.
    exists [], (if debug self then [exception_line e] else []).
    split; [reflexivity|]. split; [auto|].
    split; [destruct (debug self); simpl; lia | intros ->; reflexivity].
Qed.

Lemma translate_posts (self : t) (text source_lang target_lang url : str) :
  _get_api_url self = Ok url ->
  filter is_post (trace (translate self text source_lang target_lang))
  = if str_truthy text
    then [EvPost (posted_request self text source_lang target_lang url)]
    else [].
Proof.
  intros Hurl. destruct (str_truthy text) eqn:Htext.
  2:{ unfold translate. rewrite Htext. reflexivity. }
  destruct (@translate_trace self text source_lang target_lang url Htext Hurl)
    as (reads & lines & -> & Hreads & _).
  assert (Hquiet : filter is_post (map EvPrint lines) = [])
    by (induction lines; simpl; auto).
  simpl. rewrite filter_app, Hquiet.
  destruct Hreads as [-> | [-> | ->]]; reflexivity.
Qed.

End Effects.

Section Values.
Context {lib : Urllib} {net : Transport}.

Import AITranslator.

(** What handling a response can return: the empty string, or a stripped
    string. *)
Lemma handle_response_value (self : t) (r : response) (s : str) :
  outcome (handle_response self r) = Ok s -> s = [] \/ exists s0, s = strip s0.
Proof.
  destruct (Z.eq_dec (status r) 401) as [E1|N1];
    [rewrite handle_response_401 by assumption; intros E; injection E; auto|].
  destruct (Z.eq_dec (status r) 429) as [E2|N2];
    [rewrite handle_response_429 by assumption; intros E; injection E; auto|].
  destruct (Z_le_gt_dec 500 (status r)) as [E5|N5];
    [rewrite handle_response_5xx by assumption; intros E; injection E; auto|].
  destruct (Z_lt_ge_dec (status r) 400) as [Eok|E4].
  - rewrite handle_response_ok by assumption.
    destruct (response_json r) as [data|e]; [|discriminate].
    destruct (extract_content data) as [v|e]; [|discriminate].
    destruct (truthy v); [|intros E; injection E; auto].
    destruct v; simpl; try discriminate.
    intros E; injection E as <-. right. eauto.
  - rewrite handle_response_4xx by (try assumption; lia).
    destruct (response_text r); [intros E; injection E; auto | discriminate].
Qed.

(** What [translate] returns: the empty string, or a stripped string. *)
Lemma translate_value (self : t) (text source_lang target_lang : str) :
  exists s,
    outcome (translate self text source_lang target_lang) = Ok s
    /\ (s = [] \/ exists s0, s = strip s0).
Proof.
  destruct (str_truthy text) eqn:Htext.
  2:{ unfold translate. rewrite Htext. exists []. auto. }
  destruct (_get_api_url_returns self) as [url Hurl].
  destruct (session_post (posted_request self text source_lang target_lang url))
    as [r|e] eqn:Hpost.
  - rewrite translate_responds with (url := url) (r := r) by assumption.
    rewrite try_except_outcome. eexists; split; [reflexivity|].
    destruct (outcome (handle_response self r)) as [s|e] eqn:Eo; [|auto].
    now apply handle_response_value in Eo.
  - rewrite translate_fails with (url := url) (e := e) by assumption.
    rewrite handle_exception_eq. exists []. auto.
Qed.

(** The value handling a response ends with does not depend on the
    adapter's [debug] attribute. *)
Lemma handle_response_value_debug (self : t) (flag : bool) (r : response) :
  match outcome (handle_response (with_debug self flag) r) with
  | Ok s => s
  | Raise _ => []
  end
  = match outcome (handle_response self r) with Ok s => s | Raise _ => [] end.
Proof.
  destruct (Z_lt_ge_dec (status r) 400) as [Eok|E4].
  - now rewrite !handle_response_ok_outcome by assumption.
  - now rewrite !handle_response_error_outcome by lia.
Qed.

End Values.

(** ** Requests, effects and values of [translate] *)

(** X1.  A call with a text posts exactly one request and a call with
    the empty text posts none; there is no second attempt on any path.
    The request goes to the URL [_get_api_url] returns, carries the body
    [_build_request_body] builds, the two headers of lines 135-138 and a
    total timeout of 30 seconds. *)
Theorem translate_posts_one_request {lib : Urllib} {net : Transport}
    (self : AITranslator.t) (text source_lang target_lang : str) :
  exists url,
    AITranslator._get_api_url self = Ok url
    /\ filter is_post
         (trace (AITranslator.translate self text source_lang target_lang))
       = if str_truthy text
         then [EvPost
                 (mk_request url
                    (AITranslator._build_request_body self text
                       source_lang target_lang)
                    [ (lit "Content-Type", lit "application/json");
                      (lit "Authorization",
                       lit "Bearer " ++ AITranslator.api_key self) ]
                    30)]
         else [].
Proof.
  destruct (_get_api_url_returns self) as [url Hurl].
  exists url. split; [exact Hurl|]. now apply translate_posts.
Qed.

(** X2.  The effects of a call come in a fixed order: nothing at all for
    the empty text; otherwise the request first, then at most one read of
    the response body (as text or as JSON, never both), then at most one
    printed line. *)
Theorem translate_effects_in_order {lib : Urllib} {net : Transport}
    (self : AITranslator.t) (text source_lang target_lang : str) :
  let run := AITranslator.translate self text source_lang target_lang in
  (str_truthy text = false /\ trace run = [])
  \/ (str_truthy text = true
      /\ exists req reads lines,
           trace run = EvPost req :: reads ++ map EvPrint lines
           /\ (reads = [] \/ reads = [EvReadText] \/ reads = [EvReadJson])
           /\ (length lines <= 1)%nat).
Proof.
  cbv zeta. destruct (str_truthy text) eqn:Htext.
  - right. split; [reflexivity|].
    destruct (_get_api_url_returns self) as [url Hurl].
    destruct (@translate_trace _ _ self text source_lang target_lang url Htext Hurl)
      as (reads & lines & Ht & Hreads & Hlen & _).
    eauto 10.
  - left. split; [reflexivity|]. unfold AITranslator.translate.
    now rewrite Htext.
Qed.

(** X3.  Without [debug] the adapter never prints: the trace of a call
    holds no printed line, whatever the response or the failure. *)
Theorem translate_silent_without_debug {lib : Urllib} {net : Transport}
    (self : AITranslator.t) (text source_lang target_lang : str) :
  AITranslator.debug self = false ->
  printed (trace (AITranslator.translate self text source_lang target_lang)) = [].
Proof.
  intros Hdebug. destruct (str_truthy text) eqn:Htext.
  2:{ unfold AITranslator.translate. now rewrite Htext. }
  destruct (_get_api_url_returns self) as [url Hurl].
  destruct (@translate_trace _ _ self text source_lang target_lang url Htext Hurl)
    as (reads & lines & -> & Hreads & _ & Hsilent).
  rewrite (Hsilent Hdebug).
  destruct Hreads as [-> | [-> | ->]]; reflexivity.
Qed.

(** X4.  The [debug] attribute only adds printed lines: the string a call
    returns is the same with [debug] on and off. *)
Theorem translate_value_independent_of_debug {lib : Urllib} {net : Transport}
    (self : AITranslator.t) (flag : bool) (text source_lang target_lang : str) :
  outcome (AITranslator.translate (with_debug self flag) text
             source_lang target_lang)
  = outcome (AITranslator.translate self text source_lang target_lang).
Proof.
  destruct (str_truthy text) eqn:Htext.
  2:{ unfold AITranslator.translate. now rewrite Htext. }
  destruct (_get_api_url_returns self) as [url Hurl].
  assert (Hurl' : AITranslator._get_api_url (with_debug self flag) = Ok url)
    by exact Hurl.
  destruct (session_post (posted_request self text source_lang target_lang url))
    as [r|e] eqn:Hpost.
  - rewrite translate_responds with (url := url) (r := r) by assumption.
    rewrite translate_responds with (url := url) (r := r);
      [|assumption|assumption|exact Hpost].
    rewrite !try_except_outcome. f_equal. apply handle_response_value_debug.
  - rewrite translate_fails with (url := url) (e := e) by assumption.
    rewrite translate_fails with (url := url) (e := e);
      [|assumption|assumption|exact Hpost].
    now rewrite !handle_exception_eq.
Qed.

(** X5.  The string a call returns never starts and never ends with a
    whitespace character. *)
Theorem translate_result_has_no_outer_whitespace {lib : Urllib} {net : Transport}
    (self : AITranslator.t) (text source_lang target_lang : str) :
  exists s,
    outcome (AITranslator.translate self text source_lang target_lang) = Ok s
    /\ match s with [] => True | c :: _ => isspace c = false end
    /\ match rev s with [] => True | c :: _ => isspace c = false end.
Proof.
  destruct (translate_value self text source_lang target_lang)
    as (s & Hs & [-> | [s0 ->]]).
  - exists []. simpl. auto.
  - exists (strip s0). split; [exact Hs|].
    destruct (strip_trimmed s0) as (_ & Hhead & Hlast). auto.
Qed.

Section Outcomes.
Context {lib : Urllib} {net : Transport}.

Import AITranslator.

Lemma translate_on_response (self : t) (text source_lang target_lang : str)
    (req : http_request) (r : response) :
  In (EvPost req) (trace (translate self text source_lang target_lang)) ->
  session_post req = Responds r ->
  translate self text source_lang target_lang
  = try_except
      (EvPost req :: trace (handle_response self r),
       outcome (handle_response self r))
      (handle_exception self).
Proof.
  intros Hin Hpost.
  destruct (posted_inv _ _ _ _ _ Hin) as (Htext & url & Hurl & ->).
  now apply translate_responds.
Qed.

Lemma translate_on_failure (self : t) (text source_lang target_lang : str)
    (req : http_request) (e : exn) :
  In (EvPost req) (trace (translate self text source_lang target_lang)) ->
  session_post req = Fails e ->
  translate self text source_lang target_lang
  = (EvPost req :: log_lines (debug self) (exception_line e), Ok []).
Proof.
  intros Hin Hpost.
  destruct (posted_inv _ _ _ _ _ Hin) as (Htext & url & Hurl & ->).
  rewrite translate_fails with (url := url) (e := e) by assumption.
  now rewrite handle_exception_eq.
Qed.

Lemma strip_all_space (s : str) : forallb isspace s = true -> strip s = [].
Proof.
  intros Hs. unfold strip, lstrip.
  assert (E : dropwhile isspace s = []).
  { induction s as [|c s IH]; [reflexivity|]. simpl in *.
    apply andb_true_iff in Hs as [-> Hs]. now apply IH. }
  now rewrite E.
Qed.

End Outcomes.

(** X6.  A content made of whitespace only is not empty for the test of
    line 172: the call returns the empty string, and it prints no "Empty
    response" line even under [debug]. *)
Theorem translate_whitespace_content {lib : Urllib} {net : Transport}
    (self : AITranslator.t) (text source_lang target_lang : str)
    (req : http_request) (r : response) (data : json) (s : str) :
  In (EvPost req)
     (trace (AITranslator.translate self text source_lang target_lang)) ->
  session_post req = Responds r ->
  (status r < 400)%Z ->
  response_json r = Ok data ->
  response_content data = Some (JStr s) ->
  s <> [] ->
  forallb isspace s = true ->
  AITranslator.translate self text source_lang target_lang
  = ([EvPost req; EvReadJson], Ok []).
Proof.
  intros Hin Hpost Hstatus Hjson Hcontent Hne Hspace.
  rewrite translate_on_response with (req := req) (r := r) by assumption.
  rewrite handle_response_ok by assumption. rewrite Hjson.
  pose proof (extract_content_spec data) as Hx. rewrite Hcontent in Hx.
  rewrite Hx. destruct s as [|c s]; [congruence|].
  simpl truthy. cbv iota. simpl py_strip. rewrite strip_all_space by assumption.
  reflexivity.
Qed.

(** X7.  The guard is [response.ok], so every status below 400 is handled
    as a success, 1xx and 3xx included: the call returns the stripped
    content when the body holds a string at [choices[0].message.content],
    and the empty string otherwise. *)
Theorem translate_below_400_content {lib : Urllib} {net : Transport}
    (self : AITranslator.t) (text source_lang target_lang : str)
    (req : http_request) (r : response) :
  In (EvPost req)
     (trace (AITranslator.translate self text source_lang target_lang)) ->
  session_post req = Responds r ->
  (status r < 400)%Z ->
  outcome (AITranslator.translate self text source_lang target_lang)
  = Ok (match response_json r with
        | Raise _ => []
        | Ok data =>
            match response_content data with
            | Some (JStr s) => strip s
            | _ => []
            end
        end).
Proof.
  intros Hin Hpost Hstatus.
  rewrite translate_on_response with (req := req) (r := r) by assumption.
  rewrite try_except_outcome. f_equal.
  now apply handle_response_ok_outcome.
Qed.

(** X8.  Whatever is raised inside the [try] goes through the same three
    [except] clauses, in order: an exception of the request itself, of
    reading the JSON body of a response below 400, and of reading the text
    of a 4xx response each end the call with the empty string and, under
    [debug], with the one line of the first clause that matches.  A
    timeout that is also a client error is reported as a timeout. *)
Theorem translate_exception_lines {lib : Urllib} {net : Transport}
    (self : AITranslator.t) (text source_lang target_lang : str)
    (req : http_request) :
  let run := AITranslator.translate self text source_lang target_lang in
  let debug := AITranslator.debug self in
  In (EvPost req) (trace run) ->
  (forall e, session_post req = Fails e ->
     run = (EvPost req :: log_lines debug (exception_line e), Ok []))
  /\ (forall r e, session_post req = Responds r -> (status r < 400)%Z ->
        response_json r = Raise e ->
        run = (EvPost req :: EvReadJson :: log_lines debug (exception_line e),
               Ok []))
  /\ (forall r e, session_post req = Responds r ->
        (400 <= status r < 500)%Z -> status r <> 401%Z -> status r <> 429%Z ->
        response_text r = Raise e ->
        run = (EvPost req :: EvReadText :: log_lines debug (exception_line e),
               Ok []))
  /\ (forall e, is_TimeoutError e = true ->
        exception_line e = lit "[AI Translator] API request timeout").
Proof.
  cbv zeta. intros Hin. split; [|split; [|split]].
  - intros e Hpost. now apply translate_on_failure.
  - intros r e Hpost Hstatus Hjson.
    rewrite translate_on_response with (req := req) (r := r) by assumption.
    rewrite handle_response_ok by assumption. rewrite Hjson.
    simpl. now rewrite handle_exception_eq.
  - intros r e Hpost Hstatus N1 N2 Htext.
    rewrite translate_on_response with (req := req) (r := r) by assumption.
    rewrite handle_response_4xx by assumption. rewrite Htext.
    simpl. now rewrite handle_exception_eq.
  - intros e He. unfold exception_line. now rewrite He.
Qed.

(** X9.  Two bodies without a completion are told apart in the log.  A
    JSON object without the key [choices] falls through the defaults of
    line 170 to the empty string and is reported as an empty response.  A
    JSON object whose [choices] is the empty array makes [[0]] raise
    [IndexError], which the last [except] clause reports as an unexpected
    error.  Both return the empty string. *)
Theorem translate_no_completion_lines {lib : Urllib} {net : Transport}
    (self : AITranslator.t) (text source_lang target_lang : str)
    (req : http_request) (r : response) (top : list (str * json)) :
  let run := AITranslator.translate self text source_lang target_lang in
  let debug := AITranslator.debug self in
  In (EvPost req) (trace run) ->
  session_post req = Responds r ->
  (status r < 400)%Z ->
  response_json r = Ok (JObj top) ->
  (dict_lookup top (lit "choices") = None ->
   run = (EvPost req :: EvReadJson
            :: log_lines debug (lit "[AI Translator] Empty response from API"),
          Ok []))
  /\ (dict_lookup top (lit "choices") = Some (JArr []) ->
      run = (EvPost req :: EvReadJson
               :: log_lines debug
                    (lit "[AI Translator] Unexpected error: list index out of range"),
             Ok [])).
Proof.
  cbv zeta. intros Hin Hpost Hstatus Hjson.
  rewrite translate_on_response with (req := req) (r := r) by assumption.
  rewrite handle_response_ok by assumption. rewrite Hjson.
  unfold AITranslator.extract_content, py_get.
  split; intros ->; simpl.
  - reflexivity.
  - now rewrite handle_exception_eq.
Qed.

(** X10.  When [urlparse] raises, the call is still made: a call with a
    text posts its one request to the configured URL, unmodified, and the
    transport decides what happens next. *)
Theorem translate_posts_to_unparsed_url {lib : Urllib} {net : Transport}
    (self : AITranslator.t) (text source_lang target_lang : str) (e : exn) :
  urlparse (AITranslator.api_url self) = Raise e ->
  filter is_post
    (trace (AITranslator.translate self text source_lang target_lang))
  = if str_truthy text
    then [EvPost
            (mk_request (AITranslator.api_url self)
               (AITranslator._build_request_body self text
                  source_lang target_lang)
               [ (lit "Content-Type", lit "application/json");
                 (lit "Authorization",
                  lit "Bearer " ++ AITranslator.api_key self) ]
               30)]
    else [].
Proof.
  intros Hparse. apply translate_posts.
  now apply _get_api_url_fallback with (e := e).
Qed.

(** ** Further properties of URL normalisation *)

Lemma endswith_last (x y : str) (c d : N) :
  endswith (x ++ [c]) (y ++ [d]) = true -> c = d.
Proof.
  intros H. apply endswith_inv in H as [pre E].
  rewrite app_assoc in E. now apply app_inj_tail in E as [_ ->].
Qed.

(** X11.  The test for the suffix is made on the path as it is written: a
    path that ends with [/chat/completions/], with a slash after the
    suffix, does not pass it, and the suffix is appended once more, after
    that slash. *)
Theorem get_api_url_suffix_then_slash {lib : Urllib}
    (self : AITranslator.t) (parsed : ParseResult) (base : str) :
  urlparse (AITranslator.api_url self) = Ok parsed ->
  path parsed = base ++ lit "/chat/completions/" ->
  AITranslator._get_api_url self
  = Ok (urlunparse (scheme parsed, netloc parsed,
                    base ++ lit "/chat/completions/chat/completions",
                    params parsed, query parsed, fragment parsed)).
Proof.
  intros Hparse Hpath. unfold AITranslator._get_api_url.
  rewrite Hparse, Hpath.
  assert (Hno : endswith (base ++ lit "/chat/completions/")
                  (lit "/chat/completions") = false).
  { destruct (endswith (base ++ lit "/chat/completions/")
                (lit "/chat/completions")) eqn:E; [|reflexivity].
    change (lit "/chat/completions/") with (lit "/chat/completions" ++ [47%N]) in E.
    change (lit "/chat/completions") with (lit "/chat/completion" ++ [115%N]) in E at 2.
    rewrite app_assoc in E. apply endswith_last in E. discriminate. }
  assert (Hslash : endswith (base ++ lit "/chat/completions/") (lit "/") = true).
  { apply endswith_assoc. reflexivity. }
  rewrite Hno, Hslash. simpl negb. cbv iota.
  now rewrite <- app_assoc.
Qed.

(** X12.  One trailing slash of the base path does not matter: two base
    URLs that parse alike, but for a slash at the end of the second path,
    are normalised to the same URL. *)
Theorem get_api_url_ignores_one_trailing_slash {lib : Urllib}
    (self slashed : AITranslator.t) (parsed : ParseResult) :
  urlparse (AITranslator.api_url self) = Ok parsed ->
  urlparse (AITranslator.api_url slashed)
  = Ok (mk_ParseResult (scheme parsed) (netloc parsed)
          (path parsed ++ lit "/")
          (params parsed) (query parsed) (fragment parsed)) ->
  endswith (path parsed) (lit "/") = false ->
  endswith (path parsed) (lit "/chat/completions") = false ->
  AITranslator._get_api_url slashed = AITranslator._get_api_url self.
Proof.
  intros Hparse Hslashed Hslash Hsuffix. unfold AITranslator._get_api_url.
  rewrite Hparse, Hslashed, Hslash, Hsuffix. simpl path.
  assert (Hno : endswith (path parsed ++ lit "/") (lit "/chat/completions") = false).
  { destruct (endswith (path parsed ++ lit "/") (lit "/chat/completions")) eqn:E;
      [|reflexivity].
    change (lit "/") with [47%N] in E.
    change (lit "/chat/completions") with (lit "/chat/completion" ++ [115%N]) in E.
    apply endswith_last in E. discriminate. }
  rewrite Hno, endswith_app. simpl. now rewrite <- app_assoc.
Qed.

(** ** Further properties of the request and of the singleton *)

Lemma last_cons_default (A : Type) (a d : A) (l : list A) :
  last (a :: l) d = last l a.
Proof.
  revert a d; induction l as [|b l IH]; intros a d; [reflexivity|].
  change (last (a :: b :: l) d) with (last (b :: l) d).
  now rewrite (IH b d), (IH b a).
Qed.

(** X13.  The module keeps the adapter of the latest call of
    [init_translator], whatever was there before, and no call removes it:
    after any calls the global is the adapter built from the arguments of
    the last one, and it is [None] only if there was none.  The
    module-level [translate] then is the method of that adapter. *)
Theorem module_keeps_latest_adapter {lib : Urllib} {net : Transport}
    (calls : list init_call) (globals : module_state) :
  _translator (after_calls calls globals)
  = last (map (fun c => Some (adapter_of c)) calls) (_translator globals)
  /\ forall c text source_lang target_lang,
       translate (after_calls (calls ++ [c]) globals) text source_lang target_lang
       = AITranslator.translate (adapter_of c) text source_lang target_lang.
Proof.
  split.
  - revert globals; induction calls as [|c calls IH]; intros globals;
      [reflexivity|].
    change (after_calls (c :: calls) globals)
      with (after_calls calls
              (init_translator (call_api_url c) (call_api_key c) (call_model c)
                 (call_system_prompt c) (call_temperature c) (call_debug c)
                 globals)).
    rewrite IH. rewrite map_cons, last_cons_default. reflexivity.
  - intros c text source_lang target_lang.
    unfold after_calls. rewrite fold_left_app. reflexivity.
Qed.

(** X14.  A system prompt that is not empty is used as given, also when
    it is made of whitespace: after [init_translator] with such a prompt,
    every request the module-level [translate] posts has that prompt as
    the content of its first message, and the template of the text as the
    content of its second. *)
Theorem custom_system_prompt_is_sent {lib : Urllib} {net : Transport}
    (api_url api_key model prompt : str) (temperature : pyfloat) (debug : bool)
    (globals : module_state) (text source_lang target_lang : str)
    (req : http_request) :
  str_truthy prompt = true ->
  In (EvPost req)
     (trace (translate
               (init_translator api_url api_key model (Some prompt)
                  temperature debug globals)
               text source_lang target_lang)) ->
  py_get (req_json req) (lit "messages") JNull
  = Ok (JArr [ JObj [ (lit "role", JStr (lit "system"));
                      (lit "content", JStr prompt) ];
               JObj [ (lit "role", JStr (lit "user"));
                      (lit "content",
                       JStr (AITranslator.user_message text
                               source_lang target_lang)) ] ]).
Proof.
  intros Hprompt Hin.
  change (translate _ text source_lang target_lang)
    with (AITranslator.translate
            (AITranslator.__init__ api_url api_key model (Some prompt)
               temperature debug)
            text source_lang target_lang) in Hin.
  destruct (posted_inv _ _ _ _ _ Hin) as (_ & url & _ & ->).
  simpl. now rewrite Hprompt.
Qed.

Lemma user_message_inj (text text' source_lang target_lang : str) :
  AITranslator.user_message text source_lang target_lang
  = AITranslator.user_message text' source_lang target_lang ->
  text = text'.
Proof.
  unfold AITranslator.user_message. intros E.
  do 10 apply app_inv_head in E.
  now apply app_inv_tail in E.
Qed.

(** X15.  For given languages the text can be read back from the request
    body: two texts with the same body are the same text. *)
Theorem request_body_determines_text
    (self : AITranslator.t) (text text' source_lang target_lang : str) :
  AITranslator._build_request_body self text source_lang target_lang
  = AITranslator._build_request_body self text' source_lang target_lang ->
  text = text'.
Proof.
  unfold AITranslator._build_request_body. intros E.
  apply user_message_inj with (source_lang := source_lang)
                              (target_lang := target_lang).
  remember (AITranslator.user_message text source_lang target_lang) as u.
  remember (AITranslator.user_message text' source_lang target_lang) as u'.
  injection E as E. exact E.
Qed.

(** X16.  The language arguments are inserted as they are, without
    escaping: a line break inside [source_lang] is read as the end of the
    first line, so two different pairs of languages can give the same user
    message. *)
Theorem user_message_does_not_escape (text a b c : str) :
  AITranslator.user_message text (a ++ LF ++ lit "Target Language: " ++ b) c
  = AITranslator.user_message text a (b ++ LF ++ lit "Target Language: " ++ c).
Proof.
  unfold AITranslator.user_message. now rewrite <- !app_assoc.
Qed.

(** ** The further properties on concrete inputs *)

(** Status 401 without [debug]: nothing is printed. *)
Lemma translate_silent_without_debug_witness :
  printed
    (trace
       (AITranslator.translate (lib := cpython)
          (net := always (Responds (json_response 401 JNull)))
          (example_adapter "https://api.example.com/v1" false)
          (lit "hello") (lit "en") (lit "ja")))
  = [].
Proof.
  apply (translate_silent_without_debug (lib := cpython)
           (net := always (Responds (json_response 401 JNull)))
           (example_adapter "https://api.example.com/v1" false)).
  reflexivity.
Defined.

(** Status 200 and a content of two spaces, under [debug]. *)
Lemma translate_whitespace_content_witness :
  AITranslator.translate (lib := cpython)
    (net := always (Responds (json_response 200
              (completion (JStr [32; 32]%N)))))
    (example_adapter "https://api.example.com/v1" true)
    (lit "hello") (lit "en") (lit "ja")
  = ([EvPost (example_request true); EvReadJson], Ok []).
Proof.
  apply (translate_whitespace_content (lib := cpython)
           (net := always (Responds (json_response 200
                     (completion (JStr [32; 32]%N)))))
           (example_adapter "https://api.example.com/v1" true)
           (lit "hello") (lit "en") (lit "ja") (example_request true)
           (r := json_response 200 (completion (JStr [32; 32]%N)))
           (data := completion (JStr [32; 32]%N)) (s := [32; 32]%N)).
  - vm_compute. left. reflexivity.
  - reflexivity.
  - simpl. lia.
  - reflexivity.
  - reflexivity.
  - discriminate.
  - reflexivity.
Defined.

(** Status 304 with a completion body: the content is returned. *)
Lemma translate_below_400_content_witness :
  outcome
    (AITranslator.translate (lib := cpython)
       (net := always (Responds (json_response 304
                 (completion (JStr (lit " hi "))))))
       (example_adapter "https://api.example.com/v1" false)
       (lit "hello") (lit "en") (lit "ja"))
  = Ok (lit "hi").
Proof.
  apply (translate_below_400_content (lib := cpython)
           (net := always (Responds (json_response 304
                     (completion (JStr (lit " hi "))))))
           (example_adapter "https://api.example.com/v1" false)
           (lit "hello") (lit "en") (lit "ja")
           (example_request false)
           (r := json_response 304 (completion (JStr (lit " hi "))))).
  - vm_compute. left. reflexivity.
  - reflexivity.
  - simpl. lia.
Defined.

(** A [ServerTimeoutError] of the request, under [debug]. *)
Lemma translate_exception_lines_witness :
  AITranslator.translate (lib := cpython)
    (net := always (Fails (mk_exn ServerTimeoutError (lit "Connection timeout"))))
    (example_adapter "https://api.example.com/v1" true)
    (lit "hello") (lit "en") (lit "ja")
  = ([EvPost (example_request true);
      EvPrint (lit "[AI Translator] API request timeout")], Ok []).
Proof.
  apply (proj1
           (translate_exception_lines (lib := cpython)
              (net := always (Fails (mk_exn ServerTimeoutError
                                       (lit "Connection timeout"))))
              (example_adapter "https://api.example.com/v1" true)
              (lit "hello") (lit "en") (lit "ja") (example_request true)
              ltac:(vm_compute; left; reflexivity))
           (mk_exn ServerTimeoutError (lit "Connection timeout"))).
  reflexivity.
Defined.

(** The body [{}], under [debug]. *)
Lemma translate_no_completion_lines_witness :
  AITranslator.translate (lib := cpython)
    (net := always (Responds (json_response 200 (JObj []))))
    (example_adapter "https://api.example.com/v1" true)
    (lit "hello") (lit "en") (lit "ja")
  = ([EvPost (example_request true); EvReadJson;
      EvPrint (lit "[AI Translator] Empty response from API")], Ok []).
Proof.
  apply (proj1
           (translate_no_completion_lines (lib := cpython)
              (net := always (Responds (json_response 200 (JObj []))))
              (example_adapter "https://api.example.com/v1" true)
              (lit "hello") (lit "en") (lit "ja") (example_request true)
              (r := json_response 200 (JObj [])) (top := [])
              ltac:(vm_compute; left; reflexivity) eq_refl
              ltac:(simpl; lia) eq_refl)).
  reflexivity.
Defined.

(** A base URL with an unclosed bracket: the request goes to it as it is. *)
Lemma translate_posts_to_unparsed_url_witness :
  filter is_post
    (trace
       (AITranslator.translate (lib := cpython)
          (net := always (Fails (mk_exn ClientError (lit "Cannot connect"))))
          (example_adapter "http://[::1/v1" false)
          (lit "hello") (lit "en") (lit "ja")))
  = [EvPost
       (posted_request (example_adapter "http://[::1/v1" false)
          (lit "hello") (lit "en") (lit "ja") (lit "http://[::1/v1"))].
Proof.
  apply (translate_posts_to_unparsed_url (lib := cpython)
           (net := always (Fails (mk_exn ClientError (lit "Cannot connect"))))
           (example_adapter "http://[::1/v1" false)
           (lit "hello") (lit "en") (lit "ja") (e := CPython.invalid_ipv6)).
  reflexivity.
Defined.

(** The suffix followed by a slash. *)
Lemma get_api_url_suffix_then_slash_witness :
  AITranslator._get_api_url (lib := cpython)
    (example_adapter "https://api.example.com/v1/chat/completions/" false)
  = Ok (lit "https://api.example.com/v1/chat/completions/chat/completions").
Proof.
  apply (get_api_url_suffix_then_slash (lib := cpython)
           (example_adapter "https://api.example.com/v1/chat/completions/" false)
           (parsed := mk_ParseResult (lit "https") (lit "api.example.com")
                        (lit "/v1/chat/completions/") [] [] [])
           (lit "/v1")).
  - reflexivity.
  - reflexivity.
Defined.

(** The two examples of the specification give one URL. *)
Lemma get_api_url_ignores_one_trailing_slash_witness :
  AITranslator._get_api_url (lib := cpython)
    (example_adapter "https://api.example.com/v1/" false)
  = AITranslator._get_api_url (lib := cpython)
      (example_adapter "https://api.example.com/v1" false).
Proof.
  apply (get_api_url_ignores_one_trailing_slash (lib := cpython)
           (example_adapter "https://api.example.com/v1" false)
           (example_adapter "https://api.example.com/v1/" false)
           (parsed := mk_ParseResult (lit "https") (lit "api.example.com")
                        (lit "/v1") [] [] [])).
  - reflexivity.
  - reflexivity.
  - reflexivity.
  - reflexivity.
Defined.

(** A prompt of one space is sent as it is. *)
Lemma custom_system_prompt_is_sent_witness :
  py_get
    (req_json
       (posted_request
          (AITranslator.__init__ (lit "https://api.example.com/v1")
             (lit "sk-test") (lit "gpt-4o-mini") (Some [32%N])
             default_temperature false)
          (lit "hello") (lit "en") (lit "ja")
          (lit "https://api.example.com/v1/chat/completions")))
    (lit "messages") JNull
  = Ok (JArr [ JObj [ (lit "role", JStr (lit "system"));
                      (lit "content", JStr [32%N]) ];
               JObj [ (lit "role", JStr (lit "user"));
                      (lit "content",
                       JStr (AITranslator.user_message (lit "hello")
                               (lit "en") (lit "ja"))) ] ]).
Proof.
  apply (custom_system_prompt_is_sent (lib := cpython)
           (net := always (Fails (mk_exn TimeoutError [])))
           (lit "https://api.example.com/v1") (lit "sk-test")
           (lit "gpt-4o-mini") [32%N] default_temperature false module_loaded
           (lit "hello") (lit "en") (lit "ja")
           (posted_request
              (AITranslator.__init__ (lit "https://api.example.com/v1")
                 (lit "sk-test") (lit "gpt-4o-mini") (Some [32%N])
                 default_temperature false)
              (lit "hello") (lit "en") (lit "ja")
              (lit "https://api.example.com/v1/chat/completions"))).
  - reflexivity.
  - vm_compute. left. reflexivity.
Defined.

(** One body, one text. *)
Lemma request_body_determines_text_witness : lit "hello" = lit "hello".
Proof.
  apply (@request_body_determines_text
           (example_adapter "https://api.example.com/v1" false)
           (lit "hello") (lit "hello") (lit "en") (lit "ja")).
  reflexivity.
Defined.

(** The first example of the specification, parsed back. *)
Lemma normalised_url_parses_back_witness :
  exists url new_path,
    AITranslator._get_api_url (lib := CPython.urllib CPython.accept_all)
      (example_adapter "https://api.example.com/v1" false)
    = Ok url
    /\ endswith new_path (lit "/chat/completions") = true
    /\ CPython.urlparse CPython.accept_all url
       = Ok (mk_ParseResult (lit "https") (lit "api.example.com") new_path
               [] [] [])
    /\ normalize_again (lib := CPython.urllib CPython.accept_all)
         (example_adapter "https://api.example.com/v1" false)
       = Ok url.
Proof.
  apply (normalised_url_parses_back CPython.accept_all
           (example_adapter "https://api.example.com/v1" false)
           (p := mk_ParseResult (lit "https") (lit "api.example.com")
                   (lit "/v1") [] [] [])).
  - reflexivity.
  - discriminate.
  - reflexivity.
Defined.
